(** * Aggregation, ranking, growth and range-slider engine of the dashboard

    A shallow embedding of the computations in the dashboard page
    ([Dashboard], [DualRangeSlider]) and in the v2 page ([RangeSlider]),
    followed by the properties proved about them.

    Conventions of the embedding.
    - A JavaScript number holding a count or a day index is a [Z]; a
      ratio computed from such integers is a [Q].  A USD volume, which is
      a fraction read from the database and accumulated with [+=], is a
      binary64 [float] with the IEEE 754 addition of JavaScript.
    - A JavaScript object used as a dictionary is a [JsObject.t]: an
      association list in insertion order, which is the enumeration order
      of [Object.keys]/[Object.values]/[Object.entries] for keys that are
      not array indices (dates, chain names, categories, country codes).
    - A nullable field is an [option]; [x || 0] is [orZero] on a
      count and [orZeroF] on a volume.
    - A [Date] is its [getTime()] value, a [Z] of milliseconds since
      1970-01-01T00:00:00Z; a calendar day is named by its day count from
      1970-01-01 (the text [YYYY-MM-DD] is a rendering of that count).
    - Dictionary keys are taken not to be names inherited from
      [Object.prototype]; [toLowerCase] folds the ASCII letters.
    - An event handler reads the state of the render it was created in.
      A handler attached by the render itself ([onKeyDown], [onChange],
      [onPointerDown]) is the one of the current render; a listener
      attached to [window] stays the function of the render that
      attached it until it is removed. *)

From Stdlib Require Import PrimFloat.
From Stdlib Require Import List ZArith QArith Qround Qminmax Lqa String Ascii Bool Lia
  Sorted Permutation.
Import ListNotations.
Open Scope string_scope.
Open Scope list_scope.
Open Scope Z_scope.

(* ================================================================= *)
(** ** Part I. The embedding *)
(* ================================================================= *)

(** [x || 0] on a nullable count. *)
Definition orZero (x : option Z) : Z :=
  match x with Some v => v | None => 0 end.

(** [x || 0] on a nullable binary64 number: [null], [NaN], [0] and [-0]
    are falsy and give [0]. *)
Definition orZeroF (x : option float) : float :=
  match x with
  | Some v => if PrimFloat.is_nan v || PrimFloat.is_zero v then 0%float else v
  | None => 0%float
  end.

(** Truthiness of a nullable string ([null] and the empty string are falsy). *)
Definition truthy (s : option string) : bool :=
  match s with
  | Some s => negb (String.eqb s "")
  | None => false
  end.

Fixpoint Zsum (l : list Z) : Z :=
  match l with
  | [] => 0
  | x :: l' => x + Zsum l'
  end.

(** The binary64 sum of a list, accumulated from [0] in list order as by
    repeated [+=]. *)
Definition Fsum (l : list float) : float := fold_left PrimFloat.add l 0%float.

(** *** JavaScript objects used as dictionaries *)

Module JsObject.

Definition t (V : Type) : Type := list (string * V).

Definition empty {V : Type} : t V := [].

(** [o[k]] *)
Fixpoint get {V : Type} (o : t V) (k : string) : option V :=
  match o with
  | [] => None
  | (k', v) :: o' => if String.eqb k' k then Some v else get o' k
  end.

(** [o[k] = v]: an existing key keeps its place, a new key goes last. *)
Fixpoint set {V : Type} (o : t V) (k : string) (v : V) : t V :=
  match o with
  | [] => [(k, v)]
  | (k', v') :: o' =>
      if String.eqb k' k then (k', v) :: o' else (k', v') :: set o' k v
  end.

(** [k in o] *)
Definition has {V : Type} (o : t V) (k : string) : bool :=
  match get o k with Some _ => true | None => false end.

Definition keys {V : Type} (o : t V) : list string := map fst o.

Definition values {V : Type} (o : t V) : list V := map snd o.

Definition entries {V : Type} (o : t V) : list (string * V) := o.

End JsObject.

(** *** Fact rows and the per-date aggregation of [fetchData] *)

Module Row.

Record t : Type := mk {
  date : string;
  country : option string;
  chain : string;
  category : string;
  total_requests : option Z;
  unique_users : option Z;
  tx_volume_usd : option float
}.

End Row.

Module Bucket.

Record t : Type := mk {
  date : string;
  chain : string;
  api_calls : Z;
  tx_volume_usd : float;
  unique_users : Z;
  country : string;
  category : string
}.

End Bucket.

(** [getCountryName]: display name of an ISO code, the code itself when
    the table has no entry. *)
Definition countryNames : JsObject.t string :=
  [ ("840", "United States"); ("124", "Canada"); ("826", "United Kingdom");
    ("276", "Germany"); ("250", "France"); ("36", "Australia");
    ("392", "Japan"); ("356", "India"); ("156", "China"); ("076", "Brazil");
    ("US", "United States"); ("CA", "Canada"); ("GB", "United Kingdom");
    ("DE", "Germany"); ("FR", "France"); ("AU", "Australia"); ("JP", "Japan");
    ("IN", "India"); ("CN", "China"); ("BR", "Brazil"); ("ES", "Spain");
    ("NL", "Netherlands"); ("RU", "Russia"); ("TR", "Turkey");
    ("KR", "South Korea"); ("NG", "Nigeria"); ("ZA", "South Africa");
    ("NZ", "New Zealand") ].

Definition getCountryName (isoCode : string) : string :=
  match JsObject.get countryNames isoCode with
  | Some n => n
  | None => isoCode
  end.

Module Aggregator.

(** The component state read by [fetchData]. *)
Record ctx : Type := mkCtx {
  chain : string;
  selectedCountry : option string;
  selectedCategory : option string
}.

(** The object literal stored the first time a date is seen. *)
Definition newBucket (c : ctx) (row : Row.t) : Bucket.t :=
  Bucket.mk (Row.date row) (chain c) 0 0%float 0
    (match selectedCountry c with
     | Some sc => if truthy (Some sc) then getCountryName sc else "Global"
     | None => "Global"
     end)
    (match selectedCategory c with
     | Some sc => if truthy (Some sc) then sc else "All Categories"
     | None => "All Categories"
     end).

(** The three [+=] of the loop body. *)
Definition addRow (row : Row.t) (b : Bucket.t) : Bucket.t :=
  Bucket.mk (Bucket.date b) (Bucket.chain b)
    (Bucket.api_calls b + orZero (Row.total_requests row))
    (PrimFloat.add (Bucket.tx_volume_usd b) (orZeroF (Row.tx_volume_usd row)))
    (Bucket.unique_users b + orZero (Row.unique_users row))
    (Bucket.country b) (Bucket.category b).

(** Body of [data.forEach(row => ...)]. *)
Definition aggregateStep (c : ctx) (aggregatedData : JsObject.t Bucket.t)
    (row : Row.t) : JsObject.t Bucket.t :=
  let dateKey := Row.date row in
  let agg1 :=
    match JsObject.get aggregatedData dateKey with
    | None => JsObject.set aggregatedData dateKey (newBucket c row)
    | Some _ => aggregatedData
    end in
  match JsObject.get agg1 dateKey with
  | Some b => JsObject.set agg1 dateKey (addRow row b)
  | None => agg1
  end.

Definition aggregateByDate (c : ctx) (data : list Row.t) : JsObject.t Bucket.t :=
  fold_left (aggregateStep c) data JsObject.empty.

(** [Object.values(aggregatedData)], the value passed to [setRawData]. *)
Definition rawData (c : ctx) (data : list Row.t) : list Bucket.t :=
  JsObject.values (aggregateByDate c data).

(** The rows of [data] whose date key is [k]. *)
Definition rowsOf (k : string) (data : list Row.t) : list Row.t :=
  filter (fun r => String.eqb (Row.date r) k) data.

(** A small data set used in the examples. *)
Definition sampleCtx : ctx := mkCtx "ethereum" None None.

Definition sampleRows : list Row.t :=
  [ Row.mk "2025-06-01" (Some "US") "ethereum" "defi" (Some 100) (Some 4) (Some 2.5%float);
    Row.mk "2025-06-02" (Some "US") "ethereum" "defi" (Some 7) None None;
    Row.mk "2025-06-01" (Some "CA") "Ethereum" "nft" (Some 300) (Some 1) (Some 0.5%float);
    Row.mk "2025-06-01" None "ethereum" "nft" None (Some 2) None ].

(** Three volumes whose binary64 sum depends on the order of the rows:
    the nearest doubles of 0.1, 0.2 and 0.3. *)
Definition tenth : float := 0x1.999999999999ap-4%float.
Definition fifth : float := 0x1.999999999999ap-3%float.
Definition threeTenths : float := 0x1.3333333333333p-2%float.

Definition volumeRows (a b c : float) : list Row.t :=
  [ Row.mk "2025-06-01" (Some "US") "ethereum" "defi" None None (Some a);
    Row.mk "2025-06-01" (Some "CA") "ethereum" "defi" None None (Some b);
    Row.mk "2025-06-01" (Some "DE") "ethereum" "defi" None None (Some c) ].

End Aggregator.

(** *** Competitive rank of the selected chain among its peers *)

Module Ranker.

(** [String.prototype.toLowerCase], on the ASCII letters. *)
Definition toLowerAscii (c : ascii) : ascii :=
  let n := nat_of_ascii c in
  if ((65 <=? n) && (n <=? 90))%nat then ascii_of_nat (n + 32) else c.

Fixpoint toLowerCase (s : string) : string :=
  match s with
  | EmptyString => EmptyString
  | String c s' => String (toLowerAscii c) (toLowerCase s')
  end.

(** [arr.sort((a, b) => b - a)]: the values in descending order.  On
    numbers the result of a comparison sort is determined by the
    comparator, so it is written here as an insertion sort. *)
Fixpoint insertDesc (x : Z) (l : list Z) : list Z :=
  match l with
  | [] => [x]
  | y :: l' => if y <? x then x :: y :: l' else y :: insertDesc x l'
  end.

Definition sortDesc (l : list Z) : list Z := fold_right insertDesc [] l.

(** Descending order, as left by that sort. *)
Definition descending : list Z -> Prop := StronglySorted (fun a b : Z => b <= a).

(** The loop [for (i ...) if (allUserCounts[i] > selectedChainUsers) rank++
    else break]. *)
Fixpoint rankLoop (allUserCounts : list Z) (selectedChainUsers rank : Z) : Z :=
  match allUserCounts with
  | [] => rank
  | x :: rest =>
      if selectedChainUsers <? x
      then rankLoop rest selectedChainUsers (rank + 1)
      else rank
  end.

(** [Object.entries(chains).forEach(([dbChain, users]) => { if
    (dbChain.toLowerCase() === normalizedChain) selectedChainUsers = users })]
    starting from [selectedChainUsers = 0]. *)
Definition selectedChainUsers (chains : JsObject.t Z) (chain : string) : Z :=
  let normalizedChain := toLowerCase chain in
  fold_left
    (fun sel (e : string * Z) =>
       if String.eqb (toLowerCase (fst e)) normalizedChain then snd e else sel)
    (JsObject.entries chains) 0.

(** The rank computed for one category in [fetchCategoryData], and for
    one country inside the [if (countryChainTotals[country])] of
    [fetchCountryData]. *)
Definition rankInGroup (chains : JsObject.t Z) (chain : string) : Z :=
  let selected := selectedChainUsers chains chain in
  let allUserCounts := sortDesc (JsObject.values chains) in
  rankLoop allUserCounts selected 1.

(** [fetchCountryData]: a country missing from the all-chains data has rank 1. *)
Definition countryRank (countryChainTotals : JsObject.t (JsObject.t Z))
    (chain country : string) : Z :=
  match JsObject.get countryChainTotals country with
  | Some chainsInCountry => rankInGroup chainsInCountry chain
  | None => 1
  end.

(** Number of peer values strictly greater than [v]. *)
Definition countGreater (l : list Z) (v : Z) : Z :=
  Z.of_nat (List.length (filter (fun x => v <? x) l)).

(** Whether some key of the peer map matches [chain] up to case. *)
Definition matchesKey (chain : string) (e : string * Z) : bool :=
  String.eqb (toLowerCase (fst e)) (toLowerCase chain).

(** Equality of two names up to the case of their letters, written on
    the character codes and not through [toLowerCase]: two characters
    are the same letter when they are equal or when one is a capital
    [A]..[Z] (codes 65..90) and the other is 32 codes above it. *)
Definition upperCase (c : ascii) : Prop := (65 <= nat_of_ascii c <= 90)%nat.

Definition sameLetter (a b : ascii) : Prop :=
  a = b \/
  (upperCase a /\ nat_of_ascii b = (nat_of_ascii a + 32)%nat) \/
  (upperCase b /\ nat_of_ascii a = (nat_of_ascii b + 32)%nat).

Inductive equalIgnoringCase : string -> string -> Prop :=
| eic_empty : equalIgnoringCase "" ""
| eic_char a b s t :
    sameLetter a b -> equalIgnoringCase s t ->
    equalIgnoringCase (String a s) (String b t).

Ltac same_letters :=
  repeat (apply eic_char;
          [unfold sameLetter, upperCase; cbn; lia || (left; reflexivity) |]);
  apply eic_empty.

Ltac different_letters H :=
  inversion H as [|? ? ? ? Hc _]; subst;
  unfold sameLetter, upperCase in Hc; cbn in Hc;
  destruct Hc as [Hc|Hc]; [discriminate Hc | lia].

(** **** The "rank within all chains" of the totals cards *)

Inductive rankDisplay : Type :=
| Dash                      (* the initial ['-'] *)
| RankNum (n : Z).

(** [chainTotals[row.chain] = (chainTotals[row.chain] || 0) + (row.api_calls || 0)]
    over the rows that have a chain. *)
Definition chainTotalsOf (filtered : list Bucket.t) : JsObject.t Z :=
  fold_left
    (fun acc row =>
       if truthy (Some (Bucket.chain row))
       then JsObject.set acc (Bucket.chain row)
              (orZero (JsObject.get acc (Bucket.chain row)) + Bucket.api_calls row)
       else acc)
    filtered JsObject.empty.

(** [found || chain], empty when no chain is selected. *)
Definition currentChainKey (chainTotals : JsObject.t Z) (chain : option string)
    : string :=
  match chain with
  | Some ch =>
      if truthy (Some ch) then
        match find (fun k => String.eqb (toLowerCase k) (toLowerCase ch))
                   (JsObject.keys chainTotals) with
        | Some found => if truthy (Some found) then found else ch
        | None => ch
        end
      else ""
  | None => ""
  end.

Definition globalRank (chainTotals : JsObject.t Z) (chain : option string)
    : rankDisplay :=
  let key := currentChainKey chainTotals chain in
  let currentTotal := orZero (JsObject.get chainTotals key) in
  let sortedTotals := sortDesc (JsObject.values chainTotals) in
  if JsObject.has chainTotals key then
    if currentTotal =? 0
    then RankNum (Z.of_nat (List.length sortedTotals))
    else RankNum (1 + Z.of_nat (List.length (filter (fun val => currentTotal <? val) sortedTotals)))
  else Dash.

(** Number of peers of a peer map. *)
Definition peerCount (chainTotals : JsObject.t Z) : Z :=
  Z.of_nat (List.length (JsObject.keys chainTotals)).

End Ranker.

(** *** Numbers *)

(** [Math.round]: the nearest integer, halves towards +infinity. *)
Definition Math_round (x : Q) : Z := Qfloor (x + (1 # 2)).

(** [a > b] on reals. *)
Definition Qgtb (a b : Q) : bool := negb (Qle_bool a b).

(** *** Dates, the slider-to-date conversion and the prior period *)

Module Dates.

Definition MS_PER_DAY : Z := 24 * 60 * 60 * 1000.

(** Day count from 1970-01-01 of the civil date [y]-[m]-[d] (proleptic
    Gregorian calendar), the day named by the text [YYYY-MM-DD]. *)
Definition dayOfCivil (y m d : Z) : Z :=
  let y' := if m <=? 2 then y - 1 else y in
  let era := y' / 400 in
  let yoe := y' - era * 400 in
  let doy := (153 * (if 2 <? m then m - 3 else m + 9) + 2) / 5 + d - 1 in
  let doe := yoe * 365 + yoe / 4 - yoe / 100 + doy in
  era * 146097 + doe - 719468.

(** The civil date of a day count, as [(year, month, day)]. *)
Definition civilOfDay (z : Z) : Z * Z * Z :=
  let z' := z + 719468 in
  let era := z' / 146097 in
  let doe := z' - era * 146097 in
  let yoe := (doe - doe / 1460 + doe / 36524 - doe / 146096) / 365 in
  let doy := doe - (365 * yoe + yoe / 4 - yoe / 100) in
  let mp := (5 * doy + 2) / 153 in
  let d := doy - (153 * mp + 2) / 5 + 1 in
  let m := if mp <? 10 then mp + 3 else mp - 9 in
  let y := yoe + era * 400 in
  (if m <=? 2 then y + 1 else y, m, d).

(** [new Date(s).getTime()] for a date-only text [s] naming day [day]:
    midnight UTC of that day. *)
Definition dateOfDay (day : Z) : Z := day * MS_PER_DAY.

(** [formatDate(date) = date.toISOString().slice(0, 10)]: the UTC day
    that contains the instant [t]. *)
Definition formatDate (t : Z) : Z := t / MS_PER_DAY.

Definition DATE_START : Z := dateOfDay (dayOfCivil 2025 6 1).

Definition DATE_END : Z := dateOfDay (dayOfCivil 2025 7 31).

(** [Math.round((DATE_END.getTime() - DATE_START.getTime()) / MS_PER_DAY)] *)
Definition NUM_DAYS : Z :=
  Math_round (inject_Z (DATE_END - DATE_START) / inject_Z MS_PER_DAY).

(** The effect that recomputes a date from a thumb:
    [formatDate(new Date(DATE_START.getTime() + value * MS_PER_DAY))]. *)
Definition sliderValueToDate (value : Z) : Z :=
  formatDate (DATE_START + value * MS_PER_DAY).

(** The prior period [(ps, pe)] of the growth effect, for the current
    period [startDate .. endDate].  [days] is an exact quotient, both
    instants being midnights. *)
Definition priorPeriod (startDate endDate : Z) : Z * Z :=
  let days := (dateOfDay endDate - dateOfDay startDate) / MS_PER_DAY in
  let prevEnd := dateOfDay startDate - MS_PER_DAY in
  let prevStart := prevEnd - days * MS_PER_DAY in
  (formatDate prevStart, formatDate prevEnd).

(** Number of days of the inclusive period [a .. b]. *)
Definition periodLength (a b : Z) : Z := b - a + 1.

(** Day [d] lies in the inclusive period [a .. b]. *)
Definition inPeriod (a b d : Z) : bool := (a <=? d) && (d <=? b).

End Dates.

(** *** Growth against the prior period *)

Module Growth.

(** The value of [fastestGrowth]: [-Infinity] or a finite rate. *)
Inductive growth : Type :=
| NegInfinity
| Finite (rate : Q).

(** [rate > fastestGrowth] *)
Definition exceeds (rate : Q) (fastestGrowth : growth) : bool :=
  match fastestGrowth with
  | NegInfinity => true
  | Finite g => Qgtb rate g
  end.

(** [percentageChange = prevSum > 0 ? ((currSum - prevSum) / prevSum) * 100
                                    : currSum > 0 ? 100 : 0] *)
Definition percentageChange (currSum prevSum : Q) : Q :=
  if Qgtb prevSum 0 then ((currSum - prevSum) / prevSum) * 100
  else if Qgtb currSum 0 then 100
  else 0.

(** [totals[key] = (totals[key] || 0) + (row.total_requests || 0)] over the
    rows for which [key] is defined (the country loop skips the rows
    whose country is falsy). *)
Definition sumBy (key : Row.t -> option string) (rows : list Row.t)
    : JsObject.t Z :=
  fold_left
    (fun totals row =>
       match key row with
       | Some k =>
           JsObject.set totals k
             (orZero (JsObject.get totals k) + orZero (Row.total_requests row))
       | None => totals
       end)
    rows JsObject.empty.

Definition categoryKey (row : Row.t) : option string := Some (Row.category row).

Definition countryKey (row : Row.t) : option string :=
  if truthy (Row.country row) then Row.country row else None.

(** [row.country === filteredByCountry] *)
Definition countryIs (filteredByCountry : string) (row : Row.t) : bool :=
  match Row.country row with
  | Some c => String.eqb c filteredByCountry
  | None => false
  end.

(** [row.category === filteredByCategory] *)
Definition categoryIs (filteredByCategory : string) (row : Row.t) : bool :=
  String.eqb (Row.category row) filteredByCategory.

(** [filter ? data.filter(pred) : data] *)
Definition restrict (filterValue : string) (pred : string -> Row.t -> bool)
    (data : list Row.t) : list Row.t :=
  if truthy (Some filterValue) then filter (pred filterValue) data else data.

(** Body of [Object.keys(currTotals).forEach(key => ...)]. *)
Definition fastestStep (currTotals prevTotals : JsObject.t Z)
    (st : string * growth) (key : string) : string * growth :=
  let currTotal := orZero (JsObject.get currTotals key) in
  let prevTotal := orZero (JsObject.get prevTotals key) in
  if 0 <? prevTotal then
    let growthRate :=
      (((inject_Z currTotal - inject_Z prevTotal) / inject_Z prevTotal) * 100)%Q in
    if exceeds growthRate (snd st) then (key, Finite growthRate) else st
  else if 0 <? currTotal then
    if exceeds 100 (snd st) then (key, Finite 100) else st
  else st.

(** The pair [(fastestX, fastestGrowth)] after the loop. *)
Definition fastest (currTotals prevTotals : JsObject.t Z) : string * growth :=
  fold_left (fastestStep currTotals prevTotals)
            (JsObject.keys currTotals) ("", NegInfinity).

Definition fastestGrowingCategory (currData prevData : list Row.t)
    (filteredByCountry : string) : string * growth :=
  let categoryCurrData := restrict filteredByCountry countryIs currData in
  let categoryPrevData := restrict filteredByCountry countryIs prevData in
  fastest (sumBy categoryKey categoryCurrData) (sumBy categoryKey categoryPrevData).

Definition fastestGrowingCountry (currData prevData : list Row.t)
    (filteredByCategory : string) : string * growth :=
  let countryCurrData := restrict filteredByCategory categoryIs currData in
  let countryPrevData := restrict filteredByCategory categoryIs prevData in
  fastest (sumBy countryKey countryCurrData) (sumBy countryKey countryPrevData).

(** [percentChangeCalls]: the baseline comparison of the two sums. *)
Definition percentChangeCalls (currData prevData : list Row.t)
    (filteredByCountry : string) : Q :=
  let currCategoryTotals :=
    sumBy categoryKey (restrict filteredByCountry countryIs currData) in
  let prevCategoryTotals :=
    sumBy categoryKey (restrict filteredByCountry countryIs prevData) in
  let currSum := fold_left Z.add (JsObject.values currCategoryTotals) 0 in
  let prevSum := fold_left Z.add (JsObject.values prevCategoryTotals) 0 in
  percentageChange (inject_Z currSum) (inject_Z prevSum).

(** A key is a growth candidate when its prior or its current total is positive. *)
Definition candidate (currTotals prevTotals : JsObject.t Z) (key : string) : bool :=
  (0 <? orZero (JsObject.get prevTotals key))
  || (0 <? orZero (JsObject.get currTotals key)).

(** The state of the selection loop: either still the initial pair, or a
    candidate key of the current totals with a finite rate. *)
Definition loopInv (currTotals prevTotals : JsObject.t Z)
    (st : string * growth) : Prop :=
  st = ("", NegInfinity) \/
  (exists rate, snd st = Finite rate) /\
  In (fst st) (JsObject.keys currTotals) /\
  candidate currTotals prevTotals (fst st) = true.

(** What the selection [res] over the current rows [currRows] and the
    prior rows [prevRows], grouped by [key], has to satisfy. *)
Definition selectionSound (key : Row.t -> option string)
    (currRows prevRows : list Row.t) (res : string * growth) : Prop :=
  let currTotals := sumBy key currRows in
  let prevTotals := sumBy key prevRows in
  (snd res <> NegInfinity ->
     (exists row, In row currRows /\ key row = Some (fst res)) /\
     candidate currTotals prevTotals (fst res) = true) /\
  (snd res = NegInfinity -> fst res = "") /\
  ((forall k, In k (JsObject.keys currTotals) ->
              candidate currTotals prevTotals k = false)
   <-> res = ("", NegInfinity)).

(** Rows of the examples: one category seen in both periods, one seen
    only in the prior period, one with zero totals. *)
Definition sampleCurr : list Row.t :=
  [ Row.mk "2025-06-10" (Some "US") "ethereum" "defi" (Some 50) None None;
    Row.mk "2025-06-10" (Some "CA") "ethereum" "idle" (Some 0) None None;
    Row.mk "2025-06-11" None "ethereum" "defi" (Some 25) None None ].

Definition samplePrev : list Row.t :=
  [ Row.mk "2025-06-01" (Some "US") "ethereum" "defi" (Some 100) None None;
    Row.mk "2025-06-01" (Some "US") "ethereum" "nft" (Some 10) None None ].

End Growth.

(** *** Cross-filter of the two growth cards *)

Module CrossFilter.

Record state : Type := mkState {
  fastestGrowingCategory : string;
  fastestGrowingCountry : string;
  filteredByCategory : string;
  filteredByCountry : string
}.

(** The four [useState('')]. *)
Definition initial : state := mkState "" "" "" "".

Inductive event : Type :=
| ClickCategoryCard            (* onClick of the "Fastest Growing Category" card *)
| ClickCountryCard             (* onClick of the "Fastest Growing Country" card *)
| ClearCountryFilter           (* "Clear Filter" button of the category card *)
| ClearCategoryFilter          (* "Clear Filter" button of the country card *)
| GrowthRecomputed (category country : string).
                               (* the growth effect storing its two results *)

Definition step (s : state) (e : event) : state :=
  match e with
  | ClickCategoryCard =>
      if truthy (Some (fastestGrowingCategory s))
      then mkState (fastestGrowingCategory s) (fastestGrowingCountry s)
                   (fastestGrowingCategory s) ""
      else s
  | ClickCountryCard =>
      if truthy (Some (fastestGrowingCountry s))
      then mkState (fastestGrowingCategory s) (fastestGrowingCountry s)
                   "" (fastestGrowingCountry s)
      else s
  | ClearCountryFilter =>
      mkState (fastestGrowingCategory s) (fastestGrowingCountry s)
              (filteredByCategory s) ""
  | ClearCategoryFilter =>
      mkState (fastestGrowingCategory s) (fastestGrowingCountry s)
              "" (filteredByCountry s)
  | GrowthRecomputed category country =>
      mkState category country (filteredByCategory s) (filteredByCountry s)
  end.

Definition run (s : state) (events : list event) : state :=
  fold_left step events s.

(** At most one of the two selections is set. *)
Definition exclusive (s : state) : Prop :=
  filteredByCategory s = "" \/ filteredByCountry s = "".

End CrossFilter.

(** *** The dual-thumb [RangeSlider] of the v2 page *)

Module RangeSlider.

Record props : Type := mkProps {
  min : Z;
  max : Z;
  step : Z;
  minGap : Z
}.

Record state : Type := mkState {
  left : Z;
  right : Z
}.

Inductive thumb : Type := Left | Right.

Inductive key : Type :=
| ArrowLeft | ArrowRight | PageDown | PageUp | Home | End_ | OtherKey.

(** [clamp = (v, lo, hi) => Math.min(hi, Math.max(lo, v))] *)
Definition clamp (v lo hi : Z) : Z := Z.min hi (Z.max lo v).

Definition clampQ (v lo hi : Q) : Q := Qmin hi (Qmax lo v).

(** [snap = v => Math.round(v / step) * step], for [step <> 0].  With
    [step = 0] the source divides by zero and every snapped value is
    [NaN]; that case is outside the embedding, and the statements about
    the slider assume [step <> 0]. *)
Definition snapQ (p : props) (v : Q) : Z :=
  Math_round (v / inject_Z (step p)) * step p.

Definition snap (p : props) (v : Z) : Z := snapQ p (inject_Z v).

(** [useState(() => clamp(snap(defaultLeft), min, max))] and the same for
    the right thumb. *)
Definition init (p : props) (defaultLeft defaultRight : Z) : state :=
  mkState (clamp (snap p defaultLeft) (min p) (max p))
          (clamp (snap p defaultRight) (min p) (max p)).

(** [clientXToValue]: [raw] is [min + ratio * (max - min)], the pointer
    position on the value axis. *)
Definition clientXToValue (p : props) (raw : Q) : Z :=
  snapQ p (clampQ raw (inject_Z (min p)) (inject_Z (max p))).

(** [setLeft(clamp(v, min, right - minGap))] *)
Definition setLeftClamped (p : props) (s : state) (v : Z) : state :=
  mkState (clamp v (min p) (right s - minGap p)) (right s).

(** [setRight(clamp(v, left + minGap, max))] *)
Definition setRightClamped (p : props) (s : state) (v : Z) : state :=
  mkState (left s) (clamp v (left s + minGap p) (max p)).

(** [handlePointerMove] with [activeThumb.current = which]. *)
Definition handlePointerMove (p : props) (s : state) (which : option thumb)
    (raw : Q) : state :=
  match which with
  | None => s
  | Some which =>
      let v := clientXToValue p raw in
      match which with
      | Left => setLeftClamped p s v
      | Right => setRightClamped p s v
      end
  end.

(** The value [next] of [onKeyDown(which)] before snapping, [None] for a
    key the handler ignores. *)
Definition keyTarget (p : props) (s : state) (which : thumb) (k : key)
    : option Z :=
  let delta := fun (dir : Z) (big : bool) =>
    dir * (if big then step p * 10 else step p) in
  let next := match which with Left => left s | Right => right s end in
  match k with
  | ArrowLeft => Some (next - delta 1 false)
  | ArrowRight => Some (next + delta 1 false)
  | PageDown => Some (next - delta 1 true)
  | PageUp => Some (next + delta 1 true)
  | Home => Some (match which with Left => min p | Right => left s + minGap p end)
  | End_ => Some (match which with Right => max p | Left => right s - minGap p end)
  | OtherKey => None
  end.

(** [onKeyDown(which)]. *)
Definition onKeyDown (p : props) (s : state) (which : thumb) (k : key) : state :=
  match keyTarget p s which k with
  | None => s
  | Some next =>
      let next := snap p next in
      match which with
      | Left => setLeftClamped p s next
      | Right => setRightClamped p s next
      end
  end.

(** [onPointerDown] of the track: the nearer thumb moves. *)
Definition trackPointerDown (p : props) (s : state) (raw : Q) : state :=
  let v := clientXToValue p raw in
  if Z.abs (v - left s) <=? Z.abs (v - right s)
  then setLeftClamped p s v
  else setRightClamped p s v.

(** **** The component between two events

    [left] and [right] are React state, and every handler is a closure
    of the render that created it.  [onKeyDown] and the track's
    [onPointerDown] are attached anew by each render and read the
    current [left] and [right].  [handlePointerMove] is attached to
    [window] by [startDragging] and stays attached until the pointer
    goes up: for the whole drag it is the function of the render in
    which the pointer went down and reads the [left] and [right] of
    that render, while [activeThumb], a ref, is read afresh.  A thumb is
    a child of the track, so a pointer-down on a thumb runs
    [startDragging] and then the track's handler. *)
Record component : Type := mkComponent {
  current : state;                 (* the rendered [left] and [right] *)
  render : nat;                    (* which [handlePointerMove] the render holds *)
  activeThumb : option thumb;      (* [activeThumb.current] *)
  listeners : list (nat * state)   (* the [handlePointerMove]s on [window], each
                                      with the state of its render *)
}.

Definition state_eqb (a b : state) : bool :=
  (left a =? left b) && (right a =? right b).

(** A state update and the render that follows: [useCallback] gives a
    new [handlePointerMove] exactly when [left] or [right] has changed. *)
Definition rerender (c : component) (s : state) : component :=
  mkComponent s
    (if state_eqb s (current c) then render c else S (render c))
    (activeThumb c) (listeners c).

(** [startDragging(which)]; [addEventListener] ignores a function that
    is attached already. *)
Definition startDragging (c : component) (which : thumb) : component :=
  mkComponent (current c) (render c) (Some which)
    (if existsb (fun l => Nat.eqb (fst l) (render c)) (listeners c)
     then listeners c
     else listeners c ++ [(render c, current c)]).

(** One attached [handlePointerMove], of a render whose state was
    [captured], called while the state is [cur]: it sets one thumb to a
    value computed from [captured]. *)
Definition listenerMove (p : props) (active : option thumb) (raw : Q)
    (cur captured : state) : state :=
  match active with
  | None => cur
  | Some Left =>
      mkState (left (handlePointerMove p captured active raw)) (right cur)
  | Some Right =>
      mkState (left cur) (right (handlePointerMove p captured active raw))
  end.

(** [stopDragging], run by every attached [pointerup] listener: each
    removes itself and its [handlePointerMove]. *)
Definition stopDragging (c : component) : component :=
  match listeners c with
  | [] => c
  | _ :: _ => mkComponent (current c) (render c) None []
  end.

(** The events the component listens to.  [raw] is the position of the
    pointer on the value axis, [min + ratio * (max - min)]; for a
    pointer-down on a thumb it is a point of the thumb's disc, not
    necessarily its centre. *)
Inductive event : Type :=
| ThumbPointerDown (which : thumb) (raw : Q)
| TrackPointerDown (raw : Q)
| PointerMove (raw : Q)
| PointerUp
| KeyDown (which : thumb) (k : key).

(** What one event does: the handlers it reaches, then the render.  The
    state updates of one event are applied together, the last one of a
    thumb winning. *)
Definition handle (p : props) (c : component) (e : event) : component :=
  match e with
  | ThumbPointerDown which raw =>
      rerender (startDragging c which) (trackPointerDown p (current c) raw)
  | TrackPointerDown raw =>
      rerender c (trackPointerDown p (current c) raw)
  | PointerMove raw =>
      rerender c (fold_left (listenerMove p (activeThumb c) raw)
                            (map snd (listeners c)) (current c))
  | PointerUp => stopDragging c
  | KeyDown which k => rerender c (onKeyDown p (current c) which k)
  end.

(** The component after its first render. *)
Definition mount (p : props) (defaultLeft defaultRight : Z) : component :=
  mkComponent (init p defaultLeft defaultRight) 0 None [].

Definition run (p : props) (c : component) (events : list event) : component :=
  fold_left (handle p) events c.

(** The ordering [left + minGap <= right]. *)
Definition ordered (p : props) (s : state) : Prop :=
  left s + minGap p <= right s.

(** Both thumbs inside [[min, max]]. *)
Definition inRange (p : props) (s : state) : Prop :=
  min p <= left s <= max p /\ min p <= right s <= max p.

(** Room for the gap on either side: the left thumb at most
    [max - minGap], the right thumb at least [min + minGap]. *)
Definition gapRoom (p : props) (s : state) : Prop :=
  min p <= left s <= max p - minGap p /\
  min p + minGap p <= right s <= max p.

(** No [PointerMove] among the events. *)
Definition noPointerMove (events : list event) : Prop :=
  Forall (fun e => match e with PointerMove _ => False | _ => True end) events.

End RangeSlider.

(** *** The start/end sliders of the dashboard *)

Module DualRangeSlider.

Record state : Type := mkState {
  startValue : Z;
  endValue : Z
}.

(** [handleStartChange]; the inline [onChange] of the dashboard's start
    input is the same test on [startSliderValue]/[sliderValue]. *)
Definition handleStartChange (s : state) (newStart : Z) : state :=
  if newStart <? endValue s then mkState newStart (endValue s) else s.

(** [handleEndChange]; likewise for the end input. *)
Definition handleEndChange (s : state) (newEnd : Z) : state :=
  if startValue s <? newEnd then mkState (startValue s) newEnd else s.

End DualRangeSlider.

(** *** Other rank computations of the dashboard *)

Module RankViews.

(** [fetchMapCategoryData]: [Object.keys(chains).find(chainKey =>
    chainKey.toLowerCase() === chain.toLowerCase())]. *)
Definition selectedChainKey (chains : JsObject.t Z) (chain : string)
    : option string :=
  find (fun chainKey =>
          String.eqb (Ranker.toLowerCase chainKey) (Ranker.toLowerCase chain))
       (JsObject.keys chains).

(** [selectedChainKey ? chains[selectedChainKey] : 0] *)
Definition selectedChainUsersFind (chains : JsObject.t Z) (chain : string) : Z :=
  match selectedChainKey chains chain with
  | Some k => if truthy (Some k) then orZero (JsObject.get chains k) else 0
  | None => 0
  end.

(** [categoryRankings[category]] of [fetchMapCategoryData]. *)
Definition categoryRanking (chains : JsObject.t Z) (chain : string) : Z :=
  let selected := selectedChainUsersFind chains chain in
  let allUserCounts := Ranker.sortDesc (JsObject.values chains) in
  Ranker.rankLoop allUserCounts selected 1.

(** The chart tooltips: [let rank = 1; for (i ...) if (allValues[i] >
    currentValue) rank++], no sort and no [break]. *)
Fixpoint tooltipRankLoop (allValues : list Z) (currentValue rank : Z) : Z :=
  match allValues with
  | [] => rank
  | x :: rest =>
      tooltipRankLoop rest currentValue
        (if currentValue <? x then rank + 1 else rank)
  end.

Definition tooltipRank (allValues : list Z) (currentValue : Z) : Z :=
  tooltipRankLoop allValues currentValue 1.

(** The rank of the "Total API Requests" card when no country is
    selected: [rawData] restricted to the date range (text comparison of
    the dates), summed per chain, ranked by [Ranker.globalRank]. *)
Definition inDateRange (startDate endDate : string) (row : Bucket.t) : bool :=
  String.leb startDate (Bucket.date row) && String.leb (Bucket.date row) endDate.

Definition cardRank (rawData : list Bucket.t) (startDate endDate : string)
    (chain : option string) : Ranker.rankDisplay :=
  let filtered := filter (inDateRange startDate endDate) rawData in
  Ranker.globalRank (Ranker.chainTotalsOf filtered) chain.

End RankViews.

(** [getCountryCodeMapping]: ISO numeric code to the 2-letter code of the
    fact rows, other codes unchanged. *)
Definition countryMapping : JsObject.t string :=
  [ ("840", "US"); ("124", "CA"); ("826", "GB"); ("276", "DE"); ("250", "FR");
    ("36", "AU"); ("392", "JP"); ("356", "IN"); ("156", "CN"); ("076", "BR") ].

Definition getCountryCodeMapping (isoCode : string) : string :=
  match JsObject.get countryMapping isoCode with
  | Some code => code
  | None => isoCode
  end.

(** *** The rate compared by the fastest-growing loop *)

Module GrowthViews.

(** The value the loop body compares with [fastestGrowth] for [key]:
    [((currTotal - prevTotal) / prevTotal) * 100] when [prevTotal > 0],
    [100] when only [currTotal > 0], nothing otherwise. *)
Definition growthRateOf (currTotals prevTotals : JsObject.t Z) (key : string)
    : option Q :=
  let currTotal := orZero (JsObject.get currTotals key) in
  let prevTotal := orZero (JsObject.get prevTotals key) in
  if 0 <? prevTotal then
    Some (((inject_Z currTotal - inject_Z prevTotal) / inject_Z prevTotal) * 100)%Q
  else if 0 <? currTotal then Some 100%Q
  else None.

(** After the keys [processed], the loop state [st] holds the first key
    with the greatest rate among them, or nothing when none had a rate. *)
Definition firstMaximum (currTotals prevTotals : JsObject.t Z)
    (processed : list string) (st : string * Growth.growth) : Prop :=
  match snd st with
  | Growth.NegInfinity =>
      fst st = "" /\
      forall k, In k processed -> growthRateOf currTotals prevTotals k = None
  | Growth.Finite g =>
      exists before after,
        processed = before ++ fst st :: after /\
        growthRateOf currTotals prevTotals (fst st) = Some g /\
        (forall k r, In k before ->
           growthRateOf currTotals prevTotals k = Some r -> (r < g)%Q) /\
        (forall k r, In k after ->
           growthRateOf currTotals prevTotals k = Some r -> (r <= g)%Q)
  end.

End GrowthViews.

(** *** The start/end sliders, quick-jump buttons and dates of the dashboard *)

Module DashboardSliders.

Record state : Type := mkState {
  startSliderValue : Z;
  sliderValue : Z
}.

(** [useState(0)] and [useState(NUM_DAYS)]. *)
Definition initial : state := mkState 0 Dates.NUM_DAYS.

Inductive event : Type :=
| StartInput (newStart : Z)     (* onChange of the start input *)
| EndInput (newEnd : Z)         (* onChange of the end input *)
| Prev7Days
| Prev14Days
| AllData.

Definition step (s : state) (e : event) : state :=
  match e with
  | StartInput newStart =>
      if newStart <? sliderValue s then mkState newStart (sliderValue s) else s
  | EndInput newEnd =>
      if startSliderValue s <? newEnd then mkState (startSliderValue s) newEnd else s
  | Prev7Days => mkState (Dates.NUM_DAYS - 7) Dates.NUM_DAYS
  | Prev14Days => mkState (Dates.NUM_DAYS - 14) Dates.NUM_DAYS
  | AllData => mkState 0 Dates.NUM_DAYS
  end.

Definition run (s : state) (events : list event) : state :=
  fold_left step events s.

(** A range input with [min={0}] and [max={NUM_DAYS}] reports a value
    between the two. *)
Definition validEvent (e : event) : Prop :=
  match e with
  | StartInput n | EndInput n => 0 <= n <= Dates.NUM_DAYS
  | _ => True
  end.

(** The effect on [[startSliderValue, sliderValue]]: the two dates. *)
Definition startDate (s : state) : Z := Dates.sliderValueToDate (startSliderValue s).

Definition endDate (s : state) : Z := Dates.sliderValueToDate (sliderValue s).

End DashboardSliders.

(** Case split on the table key that [c] is equal to. *)
Ltac split_on_key c :=
  repeat match goal with
         | |- context [String.eqb ?k c] =>
             let E := fresh "E" in
             destruct (String.eqb k c) eqn:E;
             [apply String.eqb_eq in E; subst c; reflexivity|]
         end.

(** *** Styling values of the [RangeSlider] *)

Module SliderView.

(** [pct = v => ((v - min) / (max - min)) * 100] *)
Definition pct (p : RangeSlider.props) (v : Z) : Q :=
  ((inject_Z v - inject_Z (RangeSlider.min p))
   / (inject_Z (RangeSlider.max p) - inject_Z (RangeSlider.min p))) * 100.

Definition leftPct (p : RangeSlider.props) (s : RangeSlider.state) : Q :=
  pct p (RangeSlider.left s).

Definition rightPct (p : RangeSlider.props) (s : RangeSlider.state) : Q :=
  pct p (RangeSlider.right s).

(** The [width] of the highlighted range, [rightPct - leftPct]. *)
Definition rangeWidth (p : RangeSlider.props) (s : RangeSlider.state) : Q :=
  rightPct p s - leftPct p s.

End SliderView.

(** *** Slider-to-date conversions of the v2 page *)

Module V2Dates.

(** [fixedStartDate = new Date(2020, 0, 1)]: midnight of 2020-01-01 in the
    local time zone, [tzOffset] being the milliseconds by which local
    time is ahead of UTC at that instant. *)
Definition fixedStartDate (tzOffset : Z) : Z :=
  Dates.dateOfDay (Dates.dayOfCivil 2020 1 1) - tzOffset.

(** [handleSliderChange], for one thumb:
    [new Date(fixedStartDate.getTime() + value * 24 * 60 * 60 * 1000)
       .toISOString().split('T')[0]]. *)
Definition sliderToDate (tzOffset value : Z) : Z :=
  Dates.formatDate (fixedStartDate tzOffset + value * 24 * 60 * 60 * 1000).

(** [startDays]/[endDays]:
    [Math.round((new Date(date).getTime() - fixedStartDate.getTime())
                / (1000 * 60 * 60 * 24))]. *)
Definition dateToDays (tzOffset date : Z) : Z :=
  Math_round (inject_Z (Dates.dateOfDay date - fixedStartDate tzOffset)
              / inject_Z (1000 * 60 * 60 * 24)).

Definition HOUR : Z := 60 * 60 * 1000.

End V2Dates.

(** *** The globe of the v2 page and the map colours of the dashboard *)

Module Globe.

(** [a < b] on reals. *)
Definition Qltb (a b : Q) : bool := Qgtb b a.

(** [getCountryFromMousePosition] *)
Definition getCountryFromMousePosition (mouseX mouseY : Q) : option string :=
  let top :=
    if Qgtb mouseY (3 # 10) then
      if Qgtb mouseX (- (4 # 10)) && Qltb mouseX (4 # 10) then Some "GB"
      else if Qgtb mouseX (- (3 # 10)) && Qltb mouseX (3 # 10)
              && Qgtb mouseY (4 # 10) then Some "FR"
      else if Qgtb mouseX 0 && Qltb mouseX (5 # 10)
              && Qgtb mouseY (3 # 10) then Some "DE"
      else if Qgtb mouseX (- (5 # 10)) && Qltb mouseX (- (2 # 10))
              && Qgtb mouseY (3 # 10) then Some "ES"
      else if Qgtb mouseX (- (8 # 10)) && Qltb mouseX (- (4 # 10))
              && Qgtb mouseY (2 # 10) then Some "CA"
      else None
    else None in
  match top with
  | Some c => Some c
  | None =>
      let middle :=
        if Qgtb mouseY (- (2 # 10)) && Qltb mouseY (4 # 10) then
          if Qgtb mouseX (6 # 10) && Qltb mouseX 1 then Some "IN"
          else if Qgtb mouseX (7 # 10) && Qltb mouseX 1
                  && Qgtb mouseY 0 then Some "CN"
          else if Qgtb mouseX (- (6 # 10)) && Qltb mouseX (- (2 # 10))
                  && Qgtb mouseY (- (1 # 10)) then Some "BR"
          else None
        else None in
      match middle with
      | Some c => Some c
      | None =>
          if Qltb mouseY (- (1 # 10)) then
            if Qgtb mouseX (7 # 10) && Qltb mouseX 1 then Some "AU" else None
          else None
      end
  end.

(** The blue component of a country's fill colour:
    [intensity = Math.max(0.2, Math.min(1, normalizedValue))],
    [blueValue = Math.floor(150 + (105 * intensity))]. *)
Definition blueValue (normalizedValue : Q) : Z :=
  let intensity := Qmax (2 # 10) (Qmin 1 normalizedValue) in
  Qfloor (150 + 105 * intensity).

End Globe.

(** *** Sorted tables built from grouped totals *)

Module JsSort.

(** [arr.sort((a, b) => key(b) - key(a))]: descending by [key]; the sort
    is stable, so elements with equal keys keep their order. *)
Fixpoint insertByDesc {A : Type} (key : A -> Z) (x : A) (l : list A) : list A :=
  match l with
  | [] => [x]
  | y :: l' => if key x <? key y then y :: insertByDesc key x l' else x :: y :: l'
  end.

Definition sortByDesc {A : Type} (key : A -> Z) (l : list A) : list A :=
  fold_right (insertByDesc key) [] l.

Definition sortedByDesc {A : Type} (key : A -> Z) : list A -> Prop :=
  StronglySorted (fun a b => key b <= key a).

End JsSort.

(** [if (totals[k]) totals[k] += x; else totals[k] = x]: the update used
    for the per-country, per-chain, per-dapp and per-action totals (a
    stored 0 is falsy and is overwritten). *)
Definition addTo (totals : JsObject.t Z) (k : string) (x : Z) : JsObject.t Z :=
  match JsObject.get totals k with
  | Some v => if v =? 0 then JsObject.set totals k x else JsObject.set totals k (v + x)
  | None => JsObject.set totals k x
  end.

(** [fetchRealDappData] (and, with [action_type] for [dapp_name],
    [fetchRealDappActions]). *)
Module DappUsage.

Record row : Type := mkRow {
  dapp_name : string;
  total_requests : option Z
}.

Definition dappTotals (data : list row) : JsObject.t Z :=
  fold_left (fun totals r => addTo totals (dapp_name r) (orZero (total_requests r)))
            data JsObject.empty.

(** [Object.entries(dappTotals).map(...).sort((a, b) => b.total_requests -
    a.total_requests)] *)
Definition dappArray (data : list row) : list (string * Z) :=
  JsSort.sortByDesc snd (JsObject.entries (dappTotals data)).

(** The requests of the rows named [name]. *)
Definition requestsOf (name : string) (data : list row) : list Z :=
  map (fun r => orZero (total_requests r))
      (filter (fun r => String.eqb (dapp_name r) name) data).

End DappUsage.

(** [fetchCountryData] for the chain ["all"]. *)
Module AllChains.

Record row : Type := mkRow {
  country : string;
  users : Z;
  chain : string
}.

Record item : Type := mkItem {
  item_country : string;
  item_users : Z;
  rank : Z;
  allChainsData : JsObject.t Z
}.

Definition countryTotals (data : list row) : JsObject.t Z :=
  fold_left (fun totals r => addTo totals (country r) (users r)) data JsObject.empty.

(** [if (!countryChainTotals[c]) countryChainTotals[c] = {}], then the
    update of the inner object. *)
Definition countryChainTotals (data : list row) : JsObject.t (JsObject.t Z) :=
  fold_left
    (fun totals r =>
       let inner := match JsObject.get totals (country r) with
                    | Some o => o
                    | None => JsObject.empty
                    end in
       JsObject.set totals (country r) (addTo inner (chain r) (users r)))
    data JsObject.empty.

(** [Object.entries(countryTotals).map(([country, users]) => ({country,
    users, rank: 0, allChainsData: countryChainTotals[country] || {}}))
    .sort((a, b) => b.users - a.users)] *)
Definition aggregatedData (data : list row) : list item :=
  JsSort.sortByDesc item_users
    (map (fun e : string * Z =>
            mkItem (fst e) (snd e) 0
              match JsObject.get (countryChainTotals data) (fst e) with
              | Some o => o
              | None => JsObject.empty
              end)
         (JsObject.entries (countryTotals data))).

End AllChains.

(** [fetchCountryDappData] of the v2 page. *)
Module CountryDapps.

Record row : Type := mkRow {
  dapp_id : Z;
  dapp_name : string;
  category : string;
  chain : string;
  total_requests : option Z;
  unique_users : option Z
}.

Record entry : Type := mkEntry {
  entry_id : Z;
  entry_name : string;
  entry_category : string;
  chains : list string;
  entry_requests : Z;
  entry_users : Z
}.

(** [`${row.dapp_name}-${row.category}`] *)
Definition keyOf (r : row) : string :=
  String.append (dapp_name r) (String.append "-" (category r)).

Definition addRow (dappAggregated : JsObject.t entry) (r : row) : JsObject.t entry :=
  let key := keyOf r in
  let e0 := match JsObject.get dappAggregated key with
            | Some e => e
            | None => mkEntry (dapp_id r) (dapp_name r) (category r) [] 0 0
            end in
  let e1 := mkEntry (entry_id e0) (entry_name e0) (entry_category e0)
              (chains e0)
              (entry_requests e0 + orZero (total_requests r))
              (entry_users e0 + orZero (unique_users r)) in
  let e2 := if existsb (String.eqb (chain r)) (chains e1)
            then e1
            else mkEntry (entry_id e1) (entry_name e1) (entry_category e1)
                   (chains e1 ++ [chain r]) (entry_requests e1) (entry_users e1) in
  JsObject.set dappAggregated key e2.

Definition dappAggregated (data : list row) : JsObject.t entry :=
  fold_left addRow data JsObject.empty.

(** [Object.values(dappAggregated).sort(...).slice(0, 30)] *)
Definition aggregatedArray (data : list row) : list entry :=
  firstn 30 (JsSort.sortByDesc entry_requests (JsObject.values (dappAggregated data))).

End CountryDapps.

(** [fetchMapCountryData]: totals per country and their grand total. *)
Module MapCountry.

Record totals : Type := mkTotals {
  total_requests : Z;
  unique_users : Z;
  tx_volume_usd : float
}.

(** The property key of [row.country] ([null] becomes the text "null"). *)
Definition keyOf (r : Row.t) : string :=
  match Row.country r with Some c => c | None => "null" end.

Definition addRow (countryTotals : JsObject.t totals) (r : Row.t)
    : JsObject.t totals :=
  let t := match JsObject.get countryTotals (keyOf r) with
           | Some t => t
           | None => mkTotals 0 0 0%float
           end in
  JsObject.set countryTotals (keyOf r)
    (mkTotals (total_requests t + orZero (Row.total_requests r))
              (unique_users t + orZero (Row.unique_users r))
              (PrimFloat.add (tx_volume_usd t) (orZeroF (Row.tx_volume_usd r)))).

(** The mock data used when the query returns no row. *)
Definition mockData : JsObject.t totals :=
  [ ("US", mkTotals 12345 5000 1000000%float);
    ("CA", mkTotals 2345 1000 200000%float);
    ("FR", mkTotals 3456 1500 300000%float);
    ("GB", mkTotals 4567 2000 400000%float);
    ("DE", mkTotals 5678 2500 500000%float) ].

Definition countryTotals (data : list Row.t) : JsObject.t totals :=
  match data with
  | [] => mockData
  | _ :: _ => fold_left addRow data JsObject.empty
  end.

(** [Object.values(countryTotals).reduce((sum, val) => sum +
    (val.total_requests || val), 0)]: a zero total makes [||] yield the
    object, and adding an object to a number gives a text, after which
    every further [+] is a concatenation.  [None] is that non-numeric
    outcome. *)
Definition totalApiRequests (data : list Row.t) : option Z :=
  fold_left
    (fun sum val =>
       match sum with
       | Some n => if total_requests val =? 0 then None
                   else Some (n + total_requests val)
       | None => None
       end)
    (JsObject.values (countryTotals data)) (Some 0).

End MapCountry.

(** *** Looking up the selected country in the map totals *)

Module CountryLookup.

(** [getSelectedCountryApiRequests]: [mapCountryData[selectedCountry] ||
    mapCountryData[mappedCode] || null], then its [total_requests]. *)
Definition getSelectedCountryApiRequests
    (mapCountryData : JsObject.t MapCountry.totals)
    (selectedCountry : option string) : Z :=
  match selectedCountry with
  | Some sc =>
      if truthy (Some sc) then
        let mappedCode := getCountryCodeMapping sc in
        let countryData :=
          match JsObject.get mapCountryData sc with
          | Some t => Some t
          | None => JsObject.get mapCountryData mappedCode
          end in
        match countryData with
        | Some t => MapCountry.total_requests t
        | None => 0
        end
      else 0
  | None => 0
  end.

(** The "Total API Requests" card with a country selected: the first of
    [selectedCountry], its mapped code and its name that is a key. *)
Definition cardCountryTotal (mapCountryData : JsObject.t MapCountry.totals)
    (selectedCountry : string) : Z :=
  let possibleKeys :=
    [selectedCountry; getCountryCodeMapping selectedCountry;
     getCountryName selectedCountry] in
  match find (fun key => JsObject.has mapCountryData key) possibleKeys with
  | Some key =>
      match JsObject.get mapCountryData key with
      | Some t => MapCountry.total_requests t
      | None => 0
      end
  | None => 0
  end.

(** Sum of [total_requests] over the rows whose country key is [k]. *)
Definition requestsFor (k : string) (data : list Row.t) : Z :=
  Zsum (map (fun r => orZero (Row.total_requests r))
            (filter (fun r => String.eqb (MapCountry.keyOf r) k) data)).

End CountryLookup.

(* ================================================================= *)
(** ** Part II. Properties *)
(* ================================================================= *)

(** *** Dictionaries *)

Section JsObjectFacts.

Context {V : Type}.
Implicit Types (o : JsObject.t V) (k : string) (v : V).

Lemma get_set_same o k v : JsObject.get (JsObject.set o k v) k = Some v.
Proof.
  induction o as [|[k' v'] o IH]; simpl.
  - now rewrite String.eqb_refl.
  - destruct (String.eqb k' k) eqn:E; simpl; rewrite E; auto.
Qed.

Lemma get_set_other o k k' v :
  k <> k' -> JsObject.get (JsObject.set o k v) k' = JsObject.get o k'.
Proof.
  intros Hne. induction o as [|[k0 v0] o IH]; simpl.
  - apply String.eqb_neq in Hne. now rewrite Hne.
  - destruct (String.eqb k0 k) eqn:E; simpl.
    + apply String.eqb_eq in E. subst k0.
      apply String.eqb_neq in Hne. now rewrite Hne.
    + now rewrite IH.
Qed.

Lemma get_none_iff o k : JsObject.get o k = None <-> ~ In k (JsObject.keys o).
Proof.
  induction o as [|[k' v'] o IH]; simpl.
  - tauto.
  - destruct (String.eqb k' k) eqn:E.
    + apply String.eqb_eq in E. split; [discriminate | tauto].
    + apply String.eqb_neq in E. rewrite IH. tauto.
Qed.

Lemma keys_set_present o k v :
  JsObject.get o k <> None -> JsObject.keys (JsObject.set o k v) = JsObject.keys o.
Proof.
  induction o as [|[k' v'] o IH]; simpl; intros H.
  - congruence.
  - destruct (String.eqb k' k) eqn:E; simpl.
    + reflexivity.
    + f_equal. now apply IH.
Qed.

Lemma keys_set_absent o k v :
  JsObject.get o k = None ->
  JsObject.keys (JsObject.set o k v) = JsObject.keys o ++ [k].
Proof.
  induction o as [|[k' v'] o IH]; simpl; intros H.
  - reflexivity.
  - destruct (String.eqb k' k) eqn:E; simpl.
    + discriminate.
    + f_equal. now apply IH.
Qed.

Lemma NoDup_keys_set o k v :
  NoDup (JsObject.keys o) -> NoDup (JsObject.keys (JsObject.set o k v)).
Proof.
  intros Hnd. destruct (JsObject.get o k) eqn:G.
  - rewrite keys_set_present by congruence. exact Hnd.
  - rewrite keys_set_absent by assumption.
    apply get_none_iff in G.
    apply NoDup_rev in Hnd. rewrite <- (rev_involutive (_ ++ _)).
    apply NoDup_rev. rewrite rev_app_distr. simpl.
    constructor; [rewrite <- in_rev; exact G | exact Hnd].
Qed.

Lemma get_some_in o k v : JsObject.get o k = Some v -> In (k, v) o.
Proof.
  induction o as [|[k' v'] o IH]; simpl; [discriminate|].
  destruct (String.eqb k' k) eqn:E.
  - apply String.eqb_eq in E. intros [= ->]. left. now subst.
  - intros H. right. auto.
Qed.

Lemma in_get_some o k v :
  NoDup (JsObject.keys o) -> In (k, v) o -> JsObject.get o k = Some v.
Proof.
  induction o as [|[k' v'] o IH]; simpl; [tauto|].
  intros Hnd [H|H].
  - injection H as -> ->. now rewrite String.eqb_refl.
  - inversion Hnd as [|? ? Hnotin Hnd']; subst.
    destruct (String.eqb k' k) eqn:E.
    + apply String.eqb_eq in E. subst k'.
      exfalso. apply Hnotin. change k with (fst (k, v)). now apply in_map.
    + auto.
Qed.

End JsObjectFacts.

(** *** Sums *)

Lemma Zsum_app (l1 l2 : list Z) : Zsum (l1 ++ l2) = Zsum l1 + Zsum l2.
Proof. induction l1 as [|x l1 IH]; simpl; lia. Qed.

Lemma Zsum_values_set {V : Type} (f : V -> Z) (o : JsObject.t V) k v :
  Zsum (map f (JsObject.values (JsObject.set o k v))) =
  Zsum (map f (JsObject.values o))
  - match JsObject.get o k with Some old => f old | None => 0 end
  + f v.
Proof.
  unfold JsObject.values.
  induction o as [|[k' v'] o IH]; simpl.
  - lia.
  - destruct (String.eqb k' k); simpl; lia.
Qed.

(** *** Per-date aggregation *)

Section AggregatorFacts.

Import Aggregator.

Variable c : ctx.

Lemma aggregateStep_same agg r :
  JsObject.get (aggregateStep c agg r) (Row.date r) =
  Some (addRow r match JsObject.get agg (Row.date r) with
                 | Some b => b
                 | None => newBucket c r
                 end).
Proof.
  unfold aggregateStep.
  destruct (JsObject.get agg (Row.date r)) as [b|] eqn:G.
  - rewrite G. apply get_set_same.
  - rewrite get_set_same. apply get_set_same.
Qed.

Lemma aggregateStep_other agg r k :
  Row.date r <> k ->
  JsObject.get (aggregateStep c agg r) k = JsObject.get agg k.
Proof.
  intros Hne. unfold aggregateStep.
  destruct (JsObject.get agg (Row.date r)) as [b|] eqn:G.
  - rewrite G. now apply get_set_other.
  - rewrite get_set_same. rewrite !get_set_other by assumption. reflexivity.
Qed.

Lemma aggregateStep_NoDup agg r :
  NoDup (JsObject.keys agg) -> NoDup (JsObject.keys (aggregateStep c agg r)).
Proof.
  intros Hnd. unfold aggregateStep.
  destruct (JsObject.get agg (Row.date r)) as [b|] eqn:G.
  - rewrite G. now apply NoDup_keys_set.
  - rewrite get_set_same. now do 2 apply NoDup_keys_set.
Qed.

Lemma aggregateByDate_snoc l r :
  aggregateByDate c (l ++ [r]) = aggregateStep c (aggregateByDate c l) r.
Proof. unfold aggregateByDate. now rewrite fold_left_app. Qed.

Lemma rowsOf_snoc k l r :
  rowsOf k (l ++ [r]) =
  rowsOf k l ++ (if String.eqb (Row.date r) k then [r] else []).
Proof. unfold rowsOf. rewrite filter_app. reflexivity. Qed.

Lemma rowsOf_date k l r : In r (rowsOf k l) -> In r l /\ Row.date r = k.
Proof.
  unfold rowsOf. rewrite filter_In. intros [H E].
  apply String.eqb_eq in E. auto.
Qed.

Lemma aggregateByDate_NoDup l : NoDup (JsObject.keys (aggregateByDate c l)).
Proof.
  induction l as [|r l IH] using rev_ind.
  - constructor.
  - rewrite aggregateByDate_snoc. now apply aggregateStep_NoDup.
Qed.

(** The bucket of key [k] is the fold of [addRow] over the rows of that
    key, started from the literal created at the first of them. *)
Lemma aggregateByDate_get l k :
  JsObject.get (aggregateByDate c l) k =
  match rowsOf k l with
  | [] => None
  | r0 :: _ => Some (fold_left (fun b r => addRow r b) (rowsOf k l) (newBucket c r0))
  end.
Proof.
  induction l as [|r l IH] using rev_ind.
  - reflexivity.
  - rewrite aggregateByDate_snoc, rowsOf_snoc.
    destruct (String.eqb (Row.date r) k) eqn:E.
    + apply String.eqb_eq in E. subst k.
      rewrite aggregateStep_same, IH.
      destruct (rowsOf (Row.date r) l) as [|r0 l0]; simpl.
      * reflexivity.
      * rewrite fold_left_app. reflexivity.
    + apply String.eqb_neq in E.
      rewrite aggregateStep_other by assumption.
      rewrite IH, app_nil_r. reflexivity.
Qed.

Lemma fold_addRow_fields l b :
  let b' := fold_left (fun b r => addRow r b) l b in
  Bucket.date b' = Bucket.date b /\
  Bucket.api_calls b' =
    Bucket.api_calls b + Zsum (map (fun r => orZero (Row.total_requests r)) l) /\
  Bucket.unique_users b' =
    Bucket.unique_users b + Zsum (map (fun r => orZero (Row.unique_users r)) l) /\
  Bucket.tx_volume_usd b' =
    fold_left PrimFloat.add (map (fun r => orZeroF (Row.tx_volume_usd r)) l)
              (Bucket.tx_volume_usd b).
Proof.
  revert b. induction l as [|r l IH]; intros b; simpl.
  - repeat split; lia.
  - destruct (IH (addRow r b)) as (Hd & Ha & Hu & Ht).
    simpl in Hd, Ha, Hu, Ht.
    repeat split; try assumption; lia.
Qed.

Lemma rawData_in b l :
  In b (rawData c l) <-> JsObject.get (aggregateByDate c l) (Bucket.date b) = Some b.
Proof.
  unfold rawData, JsObject.values. rewrite in_map_iff. split.
  - intros [[k b'] [Hb Hin]]. simpl in Hb. subst b'.
    apply in_get_some in Hin; [|apply aggregateByDate_NoDup].
    assert (Hk : Bucket.date b = k).
    { rewrite aggregateByDate_get in Hin.
      destruct (rowsOf k l) as [|r0 l0] eqn:R; [discriminate|].
      injection Hin as <-.
      destruct (fold_addRow_fields (r0 :: l0) (newBucket c r0)) as [Hd _].
      simpl in Hd. simpl. rewrite Hd.
      assert (Hin0 : In r0 (rowsOf k l)) by (rewrite R; now left).
      now apply rowsOf_date in Hin0. }
    now rewrite Hk.
  - intros H. exists (Bucket.date b, b). split; [reflexivity|].
    now apply get_some_in.
Qed.

Lemma keys_eq_dates l :
  JsObject.keys (aggregateByDate c l) = map Bucket.date (rawData c l).
Proof.
  unfold rawData, JsObject.keys, JsObject.values. rewrite map_map.
  apply map_ext_in. intros [k b] Hin. simpl.
  assert (Hb : In b (rawData c l)).
  { unfold rawData, JsObject.values. apply in_map_iff. now exists (k, b). }
  apply rawData_in in Hb.
  apply in_get_some in Hin; [|apply aggregateByDate_NoDup].
  destruct (string_dec k (Bucket.date b)) as [->|Hne]; [reflexivity|].
  exfalso.
  rewrite aggregateByDate_get in Hin.
  destruct (rowsOf k l) as [|r0 l0] eqn:R; [discriminate|].
  injection Hin as Hin.
  destruct (fold_addRow_fields (r0 :: l0) (newBucket c r0)) as [Hd _].
  simpl in Hd. simpl in Hin. rewrite Hin in Hd. simpl in Hd.
  assert (Hin0 : In r0 (rowsOf k l)) by (rewrite R; now left).
  apply rowsOf_date in Hin0. destruct Hin0 as [_ Hk]. congruence.
Qed.

Lemma aggregateStep_api_calls agg r :
  Zsum (map Bucket.api_calls (JsObject.values (aggregateStep c agg r))) =
  Zsum (map Bucket.api_calls (JsObject.values agg)) + orZero (Row.total_requests r).
Proof.
  unfold aggregateStep.
  destruct (JsObject.get agg (Row.date r)) as [b|] eqn:G.
  - rewrite G, Zsum_values_set, G. simpl. lia.
  - rewrite get_set_same, !Zsum_values_set, get_set_same, G. simpl. lia.
Qed.

Lemma aggregateStep_unique_users agg r :
  Zsum (map Bucket.unique_users (JsObject.values (aggregateStep c agg r))) =
  Zsum (map Bucket.unique_users (JsObject.values agg)) + orZero (Row.unique_users r).
Proof.
  unfold aggregateStep.
  destruct (JsObject.get agg (Row.date r)) as [b|] eqn:G.
  - rewrite G, Zsum_values_set, G. simpl. lia.
  - rewrite get_set_same, !Zsum_values_set, get_set_same, G. simpl. lia.
Qed.

(** The rows of the buckets, taken bucket by bucket, are the rows of the
    data: each row is in the group of exactly one bucket. *)
Lemma filter_disjoint_perm {A : Type} (f g : A -> bool) (l : list A) :
  (forall x, In x l -> f x && g x = false) ->
  Permutation (filter f l ++ filter g l) (filter (fun x => f x || g x) l).
Proof.
  induction l as [|x l IH]; intros H; simpl; [constructor|].
  pose proof (H x (or_introl eq_refl)) as Hx.
  specialize (IH (fun y Hy => H y (or_intror Hy))).
  destruct (f x) eqn:Ef, (g x) eqn:Eg; simpl in *; try discriminate.
  - now constructor.
  - symmetry. apply Permutation_cons_app. now symmetry.
  - assumption.
Qed.

Lemma rows_by_key_perm (ks : list string) (data : list Row.t) :
  NoDup ks ->
  Permutation (flat_map (fun k => rowsOf k data) ks)
              (filter (fun r => existsb (String.eqb (Row.date r)) ks) data).
Proof.
  induction 1 as [|k ks Hk Hnd IH]; simpl.
  - induction data as [|r data IHd]; simpl; [constructor | exact IHd].
  - eapply perm_trans; [apply Permutation_app_head, IH|].
    unfold rowsOf. apply filter_disjoint_perm.
    intros r _. destruct (String.eqb (Row.date r) k) eqn:E; [|reflexivity].
    apply String.eqb_eq in E. subst k. simpl.
    destruct (existsb (String.eqb (Row.date r)) ks) eqn:X; [|reflexivity].
    apply existsb_exists in X. destruct X as [k' [Hin Hk']].
    apply String.eqb_eq in Hk'. subst k'. now destruct Hk.
Qed.

Lemma filter_all {A : Type} (f : A -> bool) (l : list A) :
  (forall x, In x l -> f x = true) -> filter f l = l.
Proof.
  induction l as [|x l IH]; intros H; simpl; [reflexivity|].
  rewrite (H x (or_introl eq_refl)). f_equal. apply IH. intros; apply H; now right.
Qed.

Lemma flat_map_map {A B C : Type} (f : B -> list C) (g : A -> B) (l : list A) :
  flat_map f (map g l) = flat_map (fun x => f (g x)) l.
Proof. induction l as [|x l IH]; simpl; [reflexivity | now rewrite IH]. Qed.

End AggregatorFacts.

Section AggregatorTheorem.

Import Aggregator.

Example rawData_sample :
  map (fun b => (Bucket.date b, Bucket.api_calls b, Bucket.unique_users b,
                 Bucket.tx_volume_usd b))
      (rawData sampleCtx sampleRows)
  = [ ("2025-06-01", 400, 7, 3%float); ("2025-06-02", 7, 0, 0%float) ].
Proof. reflexivity. Qed.

(** The volume of a bucket is accumulated in row order: the same three
    rows in the opposite order give another total. *)
Example rawData_volume_order :
  map Bucket.tx_volume_usd (rawData sampleCtx (volumeRows tenth fifth threeTenths))
    = [0x1.3333333333334p-1%float] /\
  map Bucket.tx_volume_usd (rawData sampleCtx (volumeRows threeTenths fifth tenth))
    = [0x1.3333333333333p-1%float].
Proof. split; reflexivity. Qed.

(** C1. The per-date aggregation of [fetchData] has one bucket per date
    key: the buckets carry pairwise distinct dates, every row's date has
    a bucket, every bucket's date is the date of some row, and each of
    the three totals of a bucket is the sum of that field over exactly
    the rows with the bucket's date, a row contributing the value of the
    field when it has one and 0 when the field is null.  The two counts
    are exact integer sums.  The volume is the binary64 sum accumulated
    from 0 in row order; a volume that is null, NaN or zero contributes
    0.  The counts summed over all buckets equal the counts summed over
    all rows, and the groups of the buckets, put one after the other,
    are a rearrangement of the rows: no row is counted twice and none is
    dropped. *)
Theorem aggregate_by_date_sums (c : ctx) (data : list Row.t) :
  let count (x : option Z) : Z := match x with Some n => n | None => 0 end in
  let volume (x : option float) : float :=
    match x with
    | Some v => if PrimFloat.is_nan v || PrimFloat.is_zero v then 0%float else v
    | None => 0%float
    end in
  let rowsAt (d : string) : list Row.t :=
    filter (fun r => String.eqb (Row.date r) d) data in
  NoDup (map Bucket.date (rawData c data)) /\
  (forall r, In r data ->
     exists b, In b (rawData c data) /\ Bucket.date b = Row.date r) /\
  (forall b, In b (rawData c data) ->
     (exists r, In r data /\ Row.date r = Bucket.date b) /\
     Bucket.api_calls b =
       Zsum (map (fun r => count (Row.total_requests r)) (rowsAt (Bucket.date b))) /\
     Bucket.unique_users b =
       Zsum (map (fun r => count (Row.unique_users r)) (rowsAt (Bucket.date b))) /\
     Bucket.tx_volume_usd b =
       fold_left PrimFloat.add
         (map (fun r => volume (Row.tx_volume_usd r)) (rowsAt (Bucket.date b)))
         0%float) /\
  Zsum (map Bucket.api_calls (rawData c data)) =
    Zsum (map (fun r => count (Row.total_requests r)) data) /\
  Zsum (map Bucket.unique_users (rawData c data)) =
    Zsum (map (fun r => count (Row.unique_users r)) data) /\
  Permutation (flat_map (fun b => rowsAt (Bucket.date b)) (rawData c data)) data.
Proof.
  intros count volume rowsAt.
  change count with orZero. change volume with orZeroF.
  change rowsAt with (fun d => rowsOf d data). cbv beta.
  clear count volume rowsAt.
  assert (Hnd : NoDup (map Bucket.date (rawData c data))).
  { rewrite <- keys_eq_dates. apply aggregateByDate_NoDup. }
  assert (Hrow : forall r, In r data ->
            exists b, In b (rawData c data) /\ Bucket.date b = Row.date r);
    [| split; [exact Hnd | split; [exact Hrow | split; [| split; [| split]]]]].
  - intros r Hr.
    assert (Hin : In r (rowsOf (Row.date r) data)).
    { unfold rowsOf. apply filter_In. split; [assumption|].
      apply String.eqb_refl. }
    pose proof (aggregateByDate_get c data (Row.date r)) as G.
    destruct (rowsOf (Row.date r) data) as [|r0 l0] eqn:R; [destruct Hin|].
    match type of G with _ = Some ?x => set (b := x) in * end.
    assert (Hd : Bucket.date b = Row.date r).
    { destruct (fold_addRow_fields (r0 :: l0) (newBucket c r0)) as [Hd _].
      simpl in Hd. unfold b. simpl. rewrite Hd.
      assert (Hin0 : In r0 (rowsOf (Row.date r) data)) by (rewrite R; now left).
      now apply rowsOf_date in Hin0. }
    exists b. split; [|exact Hd].
    apply rawData_in. now rewrite Hd.
  - intros b Hb. apply rawData_in in Hb.
    rewrite aggregateByDate_get in Hb.
    destruct (rowsOf (Bucket.date b) data) as [|r0 l0] eqn:R; [discriminate|].
    injection Hb as Hb.
    assert (Hin0 : In r0 (rowsOf (Bucket.date b) data)) by (rewrite R; now left).
    apply rowsOf_date in Hin0.
    destruct (fold_addRow_fields (r0 :: l0) (newBucket c r0)) as (_ & Ha & Hu & Ht).
    simpl in Ha, Hu, Ht, Hb. rewrite Hb in Ha, Hu, Ht.
    split; [now exists r0|].
    split; [|split].
    + rewrite Ha. simpl. lia.
    + rewrite Hu. simpl. lia.
    + exact Ht.
  - clear Hnd Hrow.
    unfold rawData. induction data as [|r l IH] using rev_ind; [reflexivity|].
    rewrite aggregateByDate_snoc, aggregateStep_api_calls, IH.
    rewrite map_app, Zsum_app. simpl. lia.
  - clear Hnd Hrow.
    unfold rawData. induction data as [|r l IH] using rev_ind; [reflexivity|].
    rewrite aggregateByDate_snoc, aggregateStep_unique_users, IH.
    rewrite map_app, Zsum_app. simpl. lia.
  - rewrite <- (flat_map_map (fun k => rowsOf k data) Bucket.date).
    eapply perm_trans; [apply rows_by_key_perm, Hnd|].
    rewrite filter_all; [reflexivity|].
    intros r Hr. destruct (Hrow r Hr) as (b & Hb & Hd).
    apply existsb_exists. exists (Bucket.date b). split.
    + now apply in_map.
    + rewrite Hd. apply String.eqb_refl.
Qed.

Lemma aggregate_by_date_sums_witness :
  exists b, In b (rawData sampleCtx sampleRows) /\
    Bucket.date b = "2025-06-01" /\
    Bucket.api_calls b = 100 + 300 + 0 /\
    Bucket.unique_users b = 4 + 1 + 2 /\
    Bucket.tx_volume_usd b = 3%float.
Proof.
  pose proof (aggregate_by_date_sums sampleCtx sampleRows) as H.
  cbv zeta in H. destruct H as (_ & Hrow & Hbucket & _).
  destruct (Hrow (Row.mk "2025-06-01" (Some "US") "ethereum" "defi"
                         (Some 100) (Some 4) (Some 2.5%float)))
    as (b & Hin & Hd); [now left|].
  exists b. destruct (Hbucket b Hin) as (_ & Ha & Hu & Ht).
  rewrite Hd in Ha, Hu, Ht. cbn [Row.date] in Hd.
  split; [exact Hin|]. split; [exact Hd|].
  split; [rewrite Ha; reflexivity|].
  split; [rewrite Hu; reflexivity|].
  rewrite Ht. reflexivity.
Defined.

End AggregatorTheorem.

(** *** Competitive rank *)

Section RankerFacts.

Import Ranker.

Lemma insertDesc_Forall (P : Z -> Prop) x l :
  P x -> Forall P l -> Forall P (insertDesc x l).
Proof.
  intros Hx Hl. induction Hl as [|y l Hy Hl IH]; simpl.
  - auto.
  - destruct (y <? x); auto.
Qed.

Lemma insertDesc_descending x l : descending l -> descending (insertDesc x l).
Proof.
  unfold descending. induction 1 as [|y l Hs IH Hall]; simpl.
  - repeat constructor.
  - destruct (y <? x) eqn:E.
    + apply Z.ltb_lt in E. constructor.
      * now constructor.
      * constructor; [lia|].
        eapply Forall_impl; [|exact Hall]. simpl. intros; lia.
    + apply Z.ltb_ge in E. constructor; [exact IH|].
      now apply insertDesc_Forall.
Qed.

Lemma sortDesc_descending l : descending (sortDesc l).
Proof.
  induction l as [|x l IH]; simpl.
  - constructor.
  - now apply insertDesc_descending.
Qed.

Lemma countGreater_cons x l v :
  countGreater (x :: l) v = (if v <? x then 1 else 0) + countGreater l v.
Proof.
  unfold countGreater. simpl. destruct (v <? x); simpl List.length; lia.
Qed.

Lemma countGreater_insertDesc x l v :
  countGreater (insertDesc x l) v = countGreater (x :: l) v.
Proof.
  induction l as [|y l IH]; simpl.
  - reflexivity.
  - destruct (y <? x).
    + reflexivity.
    + rewrite (countGreater_cons y), IH, !countGreater_cons. lia.
Qed.

Lemma countGreater_sortDesc l v : countGreater (sortDesc l) v = countGreater l v.
Proof.
  induction l as [|x l IH]; simpl.
  - reflexivity.
  - rewrite countGreater_insertDesc, !countGreater_cons, IH. reflexivity.
Qed.



Lemma countGreater_none l v : Forall (fun x => x <= v) l -> countGreater l v = 0.
Proof.
  induction 1 as [|x l Hx Hl IH].
  - reflexivity.
  - rewrite countGreater_cons, IH.
    destruct (v <? x) eqn:E; [apply Z.ltb_lt in E; lia | reflexivity].
Qed.

(** On a descending array the early [break] loses nothing. *)
Lemma rankLoop_descending l v r :
  descending l -> rankLoop l v r = r + countGreater l v.
Proof.
  unfold descending. intros Hs. revert r. induction Hs as [|x l Hs IH Hall]; intros r; simpl.
  - unfold countGreater. simpl. lia.
  - rewrite countGreater_cons. destruct (v <? x) eqn:E.
    + rewrite IH. lia.
    + apply Z.ltb_ge in E. rewrite countGreater_none; [lia|].
      eapply Forall_impl; [|exact Hall]. simpl. intros; lia.
Qed.

Lemma rankInGroup_formula chains chain :
  rankInGroup chains chain =
  1 + countGreater (JsObject.values chains) (selectedChainUsers chains chain).
Proof.
  unfold rankInGroup.
  rewrite rankLoop_descending by apply sortDesc_descending.
  now rewrite countGreater_sortDesc.
Qed.

Lemma selectedChainUsers_fold (l : list (string * Z)) chain acc :
  let step := fun sel (e : string * Z) =>
    if String.eqb (toLowerCase (fst e)) (toLowerCase chain) then snd e else sel in
  (forall e, In e l -> matchesKey chain e = false) ->
  fold_left step l acc = acc.
Proof.
  intros step. revert acc. induction l as [|e l IH]; intros acc H; simpl.
  - reflexivity.
  - rewrite IH by (intros; apply H; now right).
    unfold step. specialize (H e (or_introl eq_refl)).
    unfold matchesKey in H. now rewrite H.
Qed.

Lemma selectedChainUsers_none chains chain :
  (forall e, In e chains -> matchesKey chain e = false) ->
  selectedChainUsers chains chain = 0.
Proof. intros H. unfold selectedChainUsers. now apply selectedChainUsers_fold. Qed.

Lemma selectedChainUsers_some chains chain :
  (exists e, In e chains /\ matchesKey chain e = true) ->
  exists e, In e chains /\ matchesKey chain e = true /\
            selectedChainUsers chains chain = snd e.
Proof.
  unfold selectedChainUsers, JsObject.entries. cbv zeta.
  generalize 0 as acc.
  induction chains as [|e l IH] using rev_ind; intros acc [e0 [Hin Hm]].
  - destruct Hin.
  - rewrite fold_left_app. simpl.
    destruct (String.eqb (toLowerCase (fst e)) (toLowerCase chain)) eqn:E.
    + exists e. split; [apply in_or_app; right; now left|]. now split.
    + apply in_app_or in Hin. destruct Hin as [Hin|[<-|[]]].
      * destruct (IH acc) as [e1 (H1 & H2 & H3)]; [now exists e0|].
        exists e1. split; [apply in_or_app; now left|]. now split.
      * unfold matchesKey in Hm. congruence.
Qed.

(** [toLowerCase] identifies exactly the names that are equal up to case. *)
Lemma toLowerAscii_code c :
  nat_of_ascii (toLowerAscii c) =
  if ((65 <=? nat_of_ascii c) && (nat_of_ascii c <=? 90))%nat
  then (nat_of_ascii c + 32)%nat else nat_of_ascii c.
Proof.
  unfold toLowerAscii. pose proof (nat_ascii_bounded c) as Hb.
  destruct ((65 <=? nat_of_ascii c) && (nat_of_ascii c <=? 90))%nat eqn:E;
    [|reflexivity].
  apply andb_true_iff in E. destruct E as [_ E]. apply Nat.leb_le in E.
  apply nat_ascii_embedding. lia.
Qed.

Lemma nat_of_ascii_inj a b : nat_of_ascii a = nat_of_ascii b -> a = b.
Proof.
  intros H. rewrite <- (ascii_nat_embedding a), <- (ascii_nat_embedding b).
  now rewrite H.
Qed.

Lemma toLowerAscii_sameLetter a b :
  toLowerAscii a = toLowerAscii b <-> sameLetter a b.
Proof.
  unfold sameLetter, upperCase. split.
  - intros H. apply (f_equal nat_of_ascii) in H.
    rewrite !toLowerAscii_code in H.
    destruct (Nat.eq_dec (nat_of_ascii a) (nat_of_ascii b)) as [E|E].
    + left. now apply nat_of_ascii_inj.
    + right.
      destruct (Nat.leb_spec 65 (nat_of_ascii a)), (Nat.leb_spec (nat_of_ascii a) 90),
               (Nat.leb_spec 65 (nat_of_ascii b)), (Nat.leb_spec (nat_of_ascii b) 90);
        cbn [andb] in H; lia.
  - intros H. apply nat_of_ascii_inj. rewrite !toLowerAscii_code.
    destruct H as [->|H]; [reflexivity|].
    destruct (Nat.leb_spec 65 (nat_of_ascii a)), (Nat.leb_spec (nat_of_ascii a) 90),
             (Nat.leb_spec 65 (nat_of_ascii b)), (Nat.leb_spec (nat_of_ascii b) 90);
      cbn [andb]; lia.
Qed.

Lemma toLowerCase_equalIgnoringCase s t :
  toLowerCase s = toLowerCase t <-> equalIgnoringCase s t.
Proof.
  revert t. induction s as [|a s IH]; intros [|b t]; simpl.
  - split; [constructor | reflexivity].
  - split; [discriminate | inversion 1].
  - split; [discriminate | inversion 1].
  - split.
    + intros H. injection H as Hc Hs. constructor.
      * now apply toLowerAscii_sameLetter.
      * now apply IH.
    + intros H. inversion H as [|a' b' s' t' Hc Hs]; subst.
      f_equal; [now apply toLowerAscii_sameLetter | now apply IH].
Qed.

Lemma matchesKey_equalIgnoringCase chain e :
  matchesKey chain e = true <-> equalIgnoringCase (fst e) chain.
Proof.
  unfold matchesKey. rewrite String.eqb_eq. apply toLowerCase_equalIgnoringCase.
Qed.

End RankerFacts.

Section RankerTheorems.

Import Ranker.

Example rank_two_chains :
  rankInGroup [("ethereum", 100); ("polygon", 300)] "Ethereum" = 2.
Proof. reflexivity. Qed.

Example rank_ties_share :
  rankInGroup [("a", 5); ("b", 7); ("c", 5); ("d", 1)] "A" = 2 /\
  rankInGroup [("a", 5); ("b", 7); ("c", 5); ("d", 1)] "C" = 2 /\
  rankInGroup [("a", 5); ("b", 7); ("c", 5); ("d", 1)] "D" = 4.
Proof. repeat split. Qed.

(** C2. The rank computed in [fetchCategoryData] and [fetchCountryData]
    is one plus the number of peer values strictly greater than the
    subject's value.  The subject's value is resolved without regard to
    case: it is 0 when no key of the map equals the selected chain up to
    the case of its letters, and the value of such a key when there is
    one, however the two names are capitalised.  Two subjects with the
    same value get the same rank, two names equal up to case get the
    same rank, and an empty peer map (or a country absent from the
    all-chains data) gives rank 1. *)
Theorem rank_one_plus_strictly_greater (chains : JsObject.t Z) (chain : string) :
  rankInGroup chains chain =
    1 + countGreater (JsObject.values chains) (selectedChainUsers chains chain) /\
  ((forall e, In e chains -> ~ equalIgnoringCase (fst e) chain) ->
     selectedChainUsers chains chain = 0) /\
  ((exists e, In e chains /\ equalIgnoringCase (fst e) chain) ->
     exists e, In e chains /\ equalIgnoringCase (fst e) chain /\
               selectedChainUsers chains chain = snd e) /\
  (forall other,
     selectedChainUsers chains other = selectedChainUsers chains chain ->
     rankInGroup chains other = rankInGroup chains chain) /\
  (forall other,
     equalIgnoringCase other chain ->
     rankInGroup chains other = rankInGroup chains chain) /\
  rankInGroup JsObject.empty chain = 1 /\
  (forall countryChainTotals country,
     countryRank countryChainTotals chain country =
     match JsObject.get countryChainTotals country with
     | Some peers =>
         1 + countGreater (JsObject.values peers) (selectedChainUsers peers chain)
     | None => 1
     end).
Proof.
  split; [apply rankInGroup_formula|].
  split; [|split; [|split; [|split; [|split]]]].
  - intros H. apply selectedChainUsers_none. intros e He.
    destruct (matchesKey chain e) eqn:M; [|reflexivity].
    apply matchesKey_equalIgnoringCase in M. now destruct (H e He).
  - intros [e [He Hm]].
    destruct (selectedChainUsers_some chains chain) as [e' (H1 & H2 & H3)].
    { exists e. split; [assumption|]. now apply matchesKey_equalIgnoringCase. }
    exists e'. split; [assumption|]. split; [|assumption].
    now apply matchesKey_equalIgnoringCase.
  - intros other H. rewrite !rankInGroup_formula. now rewrite H.
  - intros other H. apply toLowerCase_equalIgnoringCase in H.
    unfold rankInGroup, selectedChainUsers. now rewrite H.
  - reflexivity.
  - intros cct country. unfold countryRank.
    destruct (JsObject.get cct country); [apply rankInGroup_formula | reflexivity].
Qed.

Lemma rank_one_plus_strictly_greater_witness :
  selectedChainUsers [("polygon", 300); ("bsc", 20)] "Ethereum" = 0 /\
  rankInGroup [("polygon", 300); ("bsc", 20)] "Ethereum" = 3 /\
  selectedChainUsers [("Ethereum", 100); ("polygon", 300)] "ETHEREUM" = 100 /\
  rankInGroup [("Ethereum", 100); ("polygon", 300)] "ETHEREUM" = 2 /\
  rankInGroup [("Ethereum", 100); ("polygon", 300)] "ethereum" =
    rankInGroup [("Ethereum", 100); ("polygon", 300)] "ETHEREUM".
Proof.
  pose proof (rank_one_plus_strictly_greater [("polygon", 300); ("bsc", 20)] "Ethereum")
    as (Hrank & Hnone & _).
  pose proof (rank_one_plus_strictly_greater [("Ethereum", 100); ("polygon", 300)]
                "ETHEREUM") as (Hrank' & _ & Hsome & _ & Hcase & _).
  assert (H0 : selectedChainUsers [("polygon", 300); ("bsc", 20)] "Ethereum" = 0).
  { apply Hnone. intros e [<-|[<-|[]]] H; cbn [fst] in H; different_letters H. }
  assert (H1 : selectedChainUsers [("Ethereum", 100); ("polygon", 300)] "ETHEREUM" = 100).
  { destruct Hsome as [e (He & Hm & Hv)].
    - exists ("Ethereum", 100). split; [now left|]. cbn [fst]. same_letters.
    - destruct He as [<-|[<-|[]]]; [exact Hv|].
      cbn [fst] in Hm. different_letters Hm. }
  split; [exact H0|]. split; [rewrite Hrank, H0; reflexivity|].
  split; [exact H1|]. split; [rewrite Hrank', H1; reflexivity|].
  apply Hcase. same_letters.
Defined.

End RankerTheorems.

Section GlobalRank.

Import Ranker.

Example globalRank_zero_subject :
  globalRank [("ethereum", 0); ("polygon", 5); ("bsc", 9)] (Some "Ethereum")
  = RankNum 3.
Proof. reflexivity. Qed.

Example globalRank_from_rawData :
  globalRank (chainTotalsOf (Aggregator.rawData Aggregator.sampleCtx Aggregator.sampleRows))
             (Some "Ethereum")
  = RankNum 1.
Proof. reflexivity. Qed.


Lemma filter_length_lt {A : Type} (f : A -> bool) (l : list A) (x : A) :
  In x l -> f x = false -> (List.length (filter f l) < List.length l)%nat.
Proof.
  induction l as [|y l IH]; simpl; [tauto|].
  intros [->|Hin] Hx.
  - rewrite Hx. pose proof (filter_length_le f l). lia.
  - specialize (IH Hin Hx). destruct (f y); simpl; lia.
Qed.



End GlobalRank.

(** *** Rounding and comparison of reals *)

Lemma Math_round_inject_Z (k : Z) : Math_round (inject_Z k) = k.
Proof.
  unfold Math_round, Qfloor, Qplus, inject_Z. simpl.
  symmetry. apply (Z.div_unique _ _ k 1); lia.
Qed.

Lemma Math_round_exact_quotient (k m : Z) :
  m <> 0 -> Math_round (inject_Z (k * m) / inject_Z m) = k.
Proof.
  intros Hm. unfold Math_round.
  assert (E : (inject_Z (k * m) / inject_Z m + (1 # 2) == inject_Z k + (1 # 2))%Q).
  { rewrite inject_Z_mult. field.
    intros H. apply Hm. now apply (inject_Z_injective m 0). }
  rewrite (Qfloor_comp _ _ E). apply Math_round_inject_Z.
Qed.

Lemma Qgtb_lt (a b : Q) : Qgtb a b = true <-> (b < a)%Q.
Proof.
  unfold Qgtb. rewrite negb_true_iff. split.
  - intros H. apply Qnot_le_lt. intros Hle.
    apply Qle_bool_iff in Hle. congruence.
  - intros H. destruct (Qle_bool a b) eqn:E; [|reflexivity].
    apply Qle_bool_iff in E. exfalso. now apply (Qlt_not_le b a).
Qed.

Lemma Qgtb_not_lt (a b : Q) : Qgtb a b = false <-> (a <= b)%Q.
Proof.
  unfold Qgtb. rewrite negb_false_iff. apply Qle_bool_iff.
Qed.

(** *** Dates *)

Section DatesFacts.

Import Dates.

Lemma MS_PER_DAY_pos : 0 < MS_PER_DAY.
Proof. reflexivity. Qed.

Lemma formatDate_dateOfDay (d : Z) : formatDate (dateOfDay d) = d.
Proof. unfold formatDate, dateOfDay. apply Z.div_mul. discriminate. Qed.

Lemma NUM_DAYS_value : NUM_DAYS = 60.
Proof. reflexivity. Qed.

Example DATE_START_civil : civilOfDay (formatDate DATE_START) = (2025, 6, 1).
Proof. reflexivity. Qed.

Example DATE_END_civil : civilOfDay (formatDate DATE_END) = (2025, 7, 31).
Proof. reflexivity. Qed.

Example priorPeriod_full_range :
  let '(ps, pe) := priorPeriod (formatDate DATE_START) (formatDate DATE_END) in
  civilOfDay ps = (2025, 4, 1) /\ civilOfDay pe = (2025, 5, 31).
Proof. split; reflexivity. Qed.

(** On the days of the slider and of its longest prior period, the
    civil rendering of a day count is read back as the same count. *)
Example civil_rendering_roundtrip :
  forallb (fun k =>
             let d := formatDate DATE_START - 61 + Z.of_nat k in
             let '(y, m, dd) := civilOfDay d in
             dayOfCivil y m dd =? d)
          (seq 0 122) = true.
Proof. vm_compute. reflexivity. Qed.

Example sliderValueToDate_30 : civilOfDay (sliderValueToDate 30) = (2025, 7, 1).
Proof. reflexivity. Qed.

(** C4. For a date range [startDate <= endDate], the prior period
    [ps .. pe] of the growth computation ends the day before
    [startDate] and starts [endDate - startDate] days before its own
    end; it has as many days as the current period, contains no day of
    it, and is followed by [startDate] without a gap. *)
Theorem priorPeriod_adjacent_same_length (startDate endDate : Z)
    (Hvalid : startDate <= endDate) :
  let '(ps, pe) := priorPeriod startDate endDate in
  pe = startDate - 1 /\
  ps = pe - (endDate - startDate) /\
  ps <= pe /\
  periodLength ps pe = periodLength startDate endDate /\
  (forall d, inPeriod ps pe d && inPeriod startDate endDate d = false) /\
  pe + 1 = startDate.
Proof.
  unfold priorPeriod.
  assert (Hdays : (dateOfDay endDate - dateOfDay startDate) / MS_PER_DAY
                  = endDate - startDate).
  { unfold dateOfDay. rewrite <- Z.mul_sub_distr_r. apply Z.div_mul. discriminate. }
  rewrite Hdays.
  replace (dateOfDay startDate - MS_PER_DAY) with (dateOfDay (startDate - 1))
    by (unfold dateOfDay; lia).
  replace (dateOfDay (startDate - 1) - (endDate - startDate) * MS_PER_DAY)
    with (dateOfDay (startDate - 1 - (endDate - startDate)))
    by (unfold dateOfDay; lia).
  rewrite !formatDate_dateOfDay.
  unfold periodLength, inPeriod.
  repeat split; try lia.
Qed.

Lemma priorPeriod_adjacent_same_length_witness :
  let '(ps, pe) := priorPeriod 20247 20253 in
  pe = 20247 - 1 /\
  ps = pe - (20253 - 20247) /\
  ps <= pe /\
  periodLength ps pe = periodLength 20247 20253 /\
  (forall d, inPeriod ps pe d && inPeriod 20247 20253 d = false) /\
  pe + 1 = 20247.
Proof. apply (priorPeriod_adjacent_same_length 20247 20253). lia. Defined.

(** C9. The round trip between slider values and dates fails in the v2
    page, the one place where both conversions exist.  Both use the
    epoch [fixedStartDate], the local midnight of 2020-01-01, and the
    date is the UTC day of the instant.  One hour ahead of UTC, slider
    value 10 becomes the date 2020-01-10 and that date becomes slider
    value 9; slider value 0 becomes 2019-12-31, a date before the epoch's
    own.  With a UTC midnight as the epoch, which is what the dashboard
    does with [DATE_START], value 10 comes back as 10, and the
    dashboard's last value [NUM_DAYS] is the date [DATE_END]. *)
Lemma v2_slider_roundtrip_loses_a_day :
  civilOfDay (V2Dates.sliderToDate V2Dates.HOUR 10) = (2020, 1, 10) /\
  V2Dates.dateToDays V2Dates.HOUR (V2Dates.sliderToDate V2Dates.HOUR 10) = 9 /\
  V2Dates.dateToDays V2Dates.HOUR (V2Dates.sliderToDate V2Dates.HOUR 10) <> 10 /\
  civilOfDay (V2Dates.sliderToDate V2Dates.HOUR 0) = (2019, 12, 31) /\
  V2Dates.dateToDays 0 (V2Dates.sliderToDate 0 10) = 10 /\
  sliderValueToDate NUM_DAYS = formatDate DATE_END.
Proof. vm_compute. repeat split; discriminate. Qed.

End DatesFacts.

(** *** Growth comparison *)

Section GrowthFacts.

Import Growth.

Example growth_from_zero_baseline : percentageChange 120 0 = 100%Q.
Proof. reflexivity. Qed.

(** C3. For non-negative totals, the growth comparison is
    [(c - p) / p * 100] when the prior total is positive, the fixed
    value 100 when the prior total is 0 and the current total is
    positive, and 0 when both are 0; it gives 50 for (150, 100) and -50
    for (50, 100). *)
Theorem percentageChange_cases (c p : Q) (Hc : (0 <= c)%Q) (Hp : (0 <= p)%Q) :
  ((0 < p)%Q -> percentageChange c p = ((c - p) / p * 100)%Q) /\
  ((p == 0)%Q -> (0 < c)%Q -> percentageChange c p = 100%Q) /\
  ((p == 0)%Q -> (c == 0)%Q -> percentageChange c p = 0%Q) /\
  (percentageChange 150 100 == 50)%Q /\
  (percentageChange 50 100 == -50)%Q.
Proof.
  unfold percentageChange.
  split; [|split; [|split; [|split]]].
  - intros H. apply Qgtb_lt in H. now rewrite H.
  - intros H0 H. assert (E : Qgtb p 0 = false).
    { apply Qgtb_not_lt. rewrite H0. apply Qle_refl. }
    apply Qgtb_lt in H. now rewrite E, H.
  - intros H0 H. assert (E : Qgtb p 0 = false).
    { apply Qgtb_not_lt. rewrite H0. apply Qle_refl. }
    assert (E' : Qgtb c 0 = false).
    { apply Qgtb_not_lt. rewrite H. apply Qle_refl. }
    now rewrite E, E'.
  - reflexivity.
  - reflexivity.
Qed.

Lemma percentageChange_cases_witness :
  percentageChange 7 4 = ((7 - 4) / 4 * 100)%Q /\
  percentageChange 120 0 = 100%Q /\
  percentageChange 0 0 = 0%Q.
Proof.
  split; [|split].
  - apply (proj1 (percentageChange_cases 7 4 ltac:(discriminate) ltac:(discriminate))).
    reflexivity.
  - apply (proj1 (proj2 (percentageChange_cases 120 0 ltac:(discriminate)
                           ltac:(discriminate)))); reflexivity.
  - apply (proj1 (proj2 (proj2 (percentageChange_cases 0 0 ltac:(discriminate)
                                  ltac:(discriminate))))); reflexivity.
Defined.

(** *** Fastest-growing selection *)

Lemma in_keys_set {V : Type} (o : JsObject.t V) k k' v :
  In k' (JsObject.keys (JsObject.set o k v)) <-> In k' (JsObject.keys o) \/ k' = k.
Proof.
  destruct (JsObject.get o k) eqn:G.
  - rewrite keys_set_present by congruence.
    split; [auto|]. intros [H| ->]; [assumption|].
    destruct (in_dec string_dec k (JsObject.keys o)) as [Hin|Hout]; [assumption|].
    apply get_none_iff in Hout. congruence.
  - rewrite keys_set_absent by assumption. rewrite in_app_iff. simpl.
    intuition congruence.
Qed.

Lemma sumBy_snoc key l r :
  sumBy key (l ++ [r]) =
  match key r with
  | Some k =>
      JsObject.set (sumBy key l) k
        (orZero (JsObject.get (sumBy key l) k) + orZero (Row.total_requests r))
  | None => sumBy key l
  end.
Proof. unfold sumBy. now rewrite fold_left_app. Qed.

Lemma keys_sumBy key rows k :
  In k (JsObject.keys (sumBy key rows)) <->
  exists row, In row rows /\ key row = Some k.
Proof.
  induction rows as [|r l IH] using rev_ind.
  - simpl. split; [tauto | intros [row [[] _]]].
  - rewrite sumBy_snoc. destruct (key r) as [k0|] eqn:K.
    + rewrite in_keys_set, IH. split.
      * intros [[row [Hin Hk]]| ->].
        -- exists row. split; [apply in_or_app; now left | assumption].
        -- exists r. split; [apply in_or_app; right; now left | assumption].
      * intros [row [Hin Hk]]. apply in_app_or in Hin.
        destruct Hin as [Hin|[<-|[]]].
        -- left. now exists row.
        -- right. congruence.
    + rewrite IH. split.
      * intros [row [Hin Hk]].
        exists row. split; [apply in_or_app; now left | assumption].
      * intros [row [Hin Hk]]. apply in_app_or in Hin.
        destruct Hin as [Hin|[<-|[]]]; [now exists row | congruence].
Qed.

Section Fastest.

Variables currTotals prevTotals : JsObject.t Z.

Lemma fastestStep_inv st k :
  In k (JsObject.keys currTotals) -> loopInv currTotals prevTotals st ->
  loopInv currTotals prevTotals (fastestStep currTotals prevTotals st k).
Proof.
  intros Hk Hst. unfold fastestStep.
  destruct (0 <? orZero (JsObject.get prevTotals k)) eqn:Ep.
  - cbv zeta. destruct (exceeds _ (snd st)); [|assumption].
    right. simpl. split; [eauto|]. split; [assumption|].
    unfold candidate. now rewrite Ep.
  - destruct (0 <? orZero (JsObject.get currTotals k)) eqn:Ec; [|assumption].
    destruct (exceeds _ (snd st)); [|assumption].
    right. simpl. split; [eauto|]. split; [assumption|].
    unfold candidate. rewrite Ec. apply orb_true_r.
Qed.

Lemma fastest_fold_inv ks st :
  incl ks (JsObject.keys currTotals) -> loopInv currTotals prevTotals st ->
  loopInv currTotals prevTotals (fold_left (fastestStep currTotals prevTotals) ks st).
Proof.
  revert st. induction ks as [|k ks IH]; intros st Hincl Hst; simpl.
  - assumption.
  - apply IH.
    + intros x Hx. apply Hincl. now right.
    + apply fastestStep_inv; [apply Hincl; now left | assumption].
Qed.

Lemma fastest_fold_no_candidate ks st :
  (forall k, In k ks -> candidate currTotals prevTotals k = false) ->
  fold_left (fastestStep currTotals prevTotals) ks st = st.
Proof.
  revert st. induction ks as [|k ks IH]; intros st H; simpl.
  - reflexivity.
  - rewrite IH by (intros; apply H; now right).
    specialize (H k (or_introl eq_refl)).
    unfold candidate in H. apply orb_false_iff in H. destruct H as [Hp Hc].
    unfold fastestStep. now rewrite Hp, Hc.
Qed.

Lemma fastestStep_finite st k :
  (exists rate, snd st = Finite rate) ->
  exists rate, snd (fastestStep currTotals prevTotals st k) = Finite rate.
Proof.
  intros Hst. unfold fastestStep.
  destruct (0 <? orZero (JsObject.get prevTotals k)).
  - cbv zeta. destruct (exceeds _ (snd st)); simpl; eauto.
  - destruct (0 <? orZero (JsObject.get currTotals k)); [|assumption].
    destruct (exceeds _ (snd st)); simpl; eauto.
Qed.

Lemma fastest_fold_finite ks st :
  (exists rate, snd st = Finite rate) ->
  exists rate, snd (fold_left (fastestStep currTotals prevTotals) ks st) = Finite rate.
Proof.
  revert st. induction ks as [|k ks IH]; intros st Hst; simpl.
  - assumption.
  - apply IH. now apply fastestStep_finite.
Qed.

Lemma fastestStep_candidate st k :
  candidate currTotals prevTotals k = true ->
  exists rate, snd (fastestStep currTotals prevTotals st k) = Finite rate.
Proof.
  intros Hc. destruct (snd st) as [|g] eqn:Es.
  - unfold fastestStep, candidate in *. rewrite Es.
    destruct (0 <? orZero (JsObject.get prevTotals k)); simpl; [eauto|].
    simpl in Hc. rewrite Hc. simpl. eauto.
  - apply fastestStep_finite. eauto.
Qed.

Lemma fastest_fold_candidate ks st k :
  In k ks -> candidate currTotals prevTotals k = true ->
  exists rate, snd (fold_left (fastestStep currTotals prevTotals) ks st) = Finite rate.
Proof.
  revert st. induction ks as [|k0 ks IH]; intros st Hin Hc; simpl.
  - destruct Hin.
  - destruct Hin as [->|Hin].
    + apply fastest_fold_finite. now apply fastestStep_candidate.
    + now apply IH.
Qed.

End Fastest.

Lemma fastest_sound key currRows prevRows :
  selectionSound key currRows prevRows
    (fastest (sumBy key currRows) (sumBy key prevRows)).
Proof.
  unfold selectionSound. cbv zeta.
  set (currTotals := sumBy key currRows).
  set (prevTotals := sumBy key prevRows).
  assert (Hinv : loopInv currTotals prevTotals (fastest currTotals prevTotals)).
  { unfold fastest. apply fastest_fold_inv; [apply incl_refl | now left]. }
  split; [|split].
  - intros Hne. destruct Hinv as [E|(_ & Hin & Hc)].
    + rewrite E in Hne. now elim Hne.
    + split; [|assumption]. now apply keys_sumBy in Hin.
  - intros Hinf. destruct Hinv as [E|([rate Hr] & _)].
    + now rewrite E.
    + congruence.
  - split.
    + intros Hnone. unfold fastest. now apply fastest_fold_no_candidate.
    + intros E k Hin.
      destruct (candidate currTotals prevTotals k) eqn:Hc; [|reflexivity].
      destruct (fastest_fold_candidate currTotals prevTotals
                  (JsObject.keys currTotals) ("", NegInfinity) k Hin Hc) as [rate Hr].
      unfold fastest in E. rewrite E in Hr. discriminate.
Qed.

Example fastest_category_sample :
  fst (fastestGrowingCategory sampleCurr samplePrev "") = "defi" /\
  fst (fastestGrowingCountry sampleCurr samplePrev "") = "US".
Proof. split; reflexivity. Qed.

Example fastest_none_sample :
  fastestGrowingCategory sampleCurr samplePrev "CA" = ("", NegInfinity) /\
  fastestGrowingCountry sampleCurr samplePrev "nft" = ("", NegInfinity).
Proof. split; reflexivity. Qed.

(** C10. The fastest-growing category (and country) is chosen among the
    keys of the current period's rows only: when a key is selected
    (finite rate) it is the key of a current row that passes the
    cross-filter, and its prior total or its current total is positive,
    so a key with both totals 0, or one seen only in the prior period,
    is never selected; when no key of the current rows has a positive
    current or prior total, and only then, the result is the empty name
    with rate minus infinity. *)
Theorem fastest_growing_selection (currData prevData : list Row.t)
    (filteredByCountry filteredByCategory : string) :
  selectionSound categoryKey
    (restrict filteredByCountry countryIs currData)
    (restrict filteredByCountry countryIs prevData)
    (fastestGrowingCategory currData prevData filteredByCountry) /\
  selectionSound countryKey
    (restrict filteredByCategory categoryIs currData)
    (restrict filteredByCategory categoryIs prevData)
    (fastestGrowingCountry currData prevData filteredByCategory).
Proof. split; apply fastest_sound. Qed.

Lemma fastest_growing_selection_witness :
  (exists row, In row (restrict "" countryIs sampleCurr) /\
               categoryKey row = Some "defi") /\
  candidate (sumBy categoryKey (restrict "" countryIs sampleCurr))
            (sumBy categoryKey (restrict "" countryIs samplePrev)) "defi" = true.
Proof.
  pose proof (fastest_growing_selection sampleCurr samplePrev "" "")
    as [(Hsel & _) _].
  apply Hsel. simpl. discriminate.
Defined.

End GrowthFacts.

(** *** Cross-filter *)

Section CrossFilterFacts.

Import CrossFilter.

Lemma step_exclusive s e : exclusive s -> exclusive (step s e).
Proof.
  unfold exclusive. intros H.
  destruct e; unfold step; try destruct (truthy _); simpl; auto.
Qed.

Lemma run_exclusive events s : exclusive s -> exclusive (run s events).
Proof.
  revert s. induction events as [|e events IH]; intros s H; simpl.
  - exact H.
  - apply IH. now apply step_exclusive.
Qed.

Example crossFilter_sample :
  let s := run initial [GrowthRecomputed "defi" "US"; ClickCategoryCard;
                        ClickCountryCard; ClearCountryFilter] in
  filteredByCategory s = "" /\ filteredByCountry s = "".
Proof. split; reflexivity. Qed.

(** C5. Starting from the initial empty state, after any sequence of
    card clicks, clear-filter clicks and recomputations of the growth
    results, at most one of [filteredByCategory] and
    [filteredByCountry] is non-empty.  A click on a card whose fastest
    entry is known selects it and empties the other selection; a
    clear-filter click empties one selection and leaves the other as it
    was. *)
Theorem crossFilter_mutually_exclusive (events : list event) (s : state) :
  exclusive (run initial events) /\
  (truthy (Some (fastestGrowingCategory s)) = true ->
     filteredByCategory (step s ClickCategoryCard) = fastestGrowingCategory s /\
     filteredByCountry (step s ClickCategoryCard) = "") /\
  (truthy (Some (fastestGrowingCountry s)) = true ->
     filteredByCountry (step s ClickCountryCard) = fastestGrowingCountry s /\
     filteredByCategory (step s ClickCountryCard) = "") /\
  (filteredByCountry (step s ClearCountryFilter) = "" /\
   filteredByCategory (step s ClearCountryFilter) = filteredByCategory s) /\
  (filteredByCategory (step s ClearCategoryFilter) = "" /\
   filteredByCountry (step s ClearCategoryFilter) = filteredByCountry s).
Proof.
  split; [apply run_exclusive; now left|].
  split; [intros H; unfold step; rewrite H; now split|].
  split; [intros H; unfold step; rewrite H; now split|].
  split; split; reflexivity.
Qed.

Lemma crossFilter_mutually_exclusive_witness :
  let s := mkState "defi" "US" "" "US" in
  (filteredByCategory (step s ClickCategoryCard) = "defi" /\
   filteredByCountry (step s ClickCategoryCard) = "") /\
  (filteredByCountry (step s ClickCountryCard) = "US" /\
   filteredByCategory (step s ClickCountryCard) = "").
Proof.
  pose proof (crossFilter_mutually_exclusive [] (mkState "defi" "US" "" "US"))
    as (_ & Hcat & Hcountry & _).
  split; [apply Hcat | apply Hcountry]; reflexivity.
Defined.

End CrossFilterFacts.

(** *** Range slider *)

Section RangeSliderFacts.

Import RangeSlider.

(** The two setters, on the state of the render they belong to. *)
Lemma setLeftClamped_ordered p s v : ordered p (setLeftClamped p s v).
Proof. unfold ordered, setLeftClamped, clamp. simpl. lia. Qed.

Lemma setRightClamped_ordered p s v :
  left s + minGap p <= max p -> ordered p (setRightClamped p s v).
Proof. unfold ordered, setRightClamped, clamp. simpl. lia. Qed.

Lemma gapRoom_inRange p s : 0 <= minGap p -> gapRoom p s -> inRange p s.
Proof. unfold gapRoom, inRange. lia. Qed.

Lemma ordered_inRange_gapRoom p s : ordered p s -> inRange p s -> gapRoom p s.
Proof. unfold ordered, gapRoom, inRange. lia. Qed.

Lemma init_inRange p defaultLeft defaultRight :
  min p <= max p -> inRange p (init p defaultLeft defaultRight).
Proof. unfold inRange, init, clamp. simpl. lia. Qed.

Lemma onKeyDown_gapRoom p s which k :
  gapRoom p s -> gapRoom p (onKeyDown p s which k).
Proof.
  unfold onKeyDown. destruct (keyTarget p s which k) as [next|]; [|auto].
  unfold gapRoom, setLeftClamped, setRightClamped, clamp.
  destruct which; simpl; lia.
Qed.

Lemma trackPointerDown_gapRoom p s raw :
  gapRoom p s -> gapRoom p (trackPointerDown p s raw).
Proof.
  unfold trackPointerDown, gapRoom, setLeftClamped, setRightClamped, clamp.
  destruct (Z.abs _ <=? Z.abs _); simpl; lia.
Qed.

(** A thumb set by a listener of an earlier render, whose state [t] had
    room for the gap, still leaves room for the gap. *)
Lemma listenerMove_gapRoom p active raw cur t :
  gapRoom p cur -> gapRoom p t -> gapRoom p (listenerMove p active raw cur t).
Proof.
  unfold gapRoom, listenerMove, handlePointerMove, setLeftClamped,
    setRightClamped, clamp.
  destruct active as [[|]|]; simpl; lia.
Qed.

Lemma fold_listenerMove_gapRoom p active raw l cur :
  gapRoom p cur -> Forall (gapRoom p) l ->
  gapRoom p (fold_left (listenerMove p active raw) l cur).
Proof.
  intros Hcur Hl. revert cur Hcur.
  induction Hl as [|t l Ht Hl IH]; intros cur Hcur; simpl.
  - assumption.
  - apply IH. now apply listenerMove_gapRoom.
Qed.

Lemma handle_gapRoom p c e :
  gapRoom p (current c) ->
  Forall (fun l => gapRoom p (snd l)) (listeners c) ->
  gapRoom p (current (handle p c e)) /\
  Forall (fun l => gapRoom p (snd l)) (listeners (handle p c e)).
Proof.
  intros Hcur Hl. destruct e as [which raw|raw|raw| |which k]; simpl.
  - split; [now apply trackPointerDown_gapRoom|].
    destruct (existsb _ _); [assumption|].
    apply Forall_app. split; [assumption|]. now constructor.
  - split; [now apply trackPointerDown_gapRoom | assumption].
  - split; [|assumption].
    apply fold_listenerMove_gapRoom; [assumption|].
    now apply Forall_map.
  - unfold stopDragging.
    destruct (listeners c) eqn:E; simpl; [rewrite E; now split|].
    split; [assumption | constructor].
  - split; [now apply onKeyDown_gapRoom | assumption].
Qed.

Lemma run_gapRoom p events c :
  gapRoom p (current c) ->
  Forall (fun l => gapRoom p (snd l)) (listeners c) ->
  gapRoom p (current (run p c events)) /\
  Forall (fun l => gapRoom p (snd l)) (listeners (run p c events)).
Proof.
  revert c. induction events as [|e events IH]; intros c Hcur Hl; simpl.
  - now split.
  - destruct (handle_gapRoom p c e Hcur Hl) as [H1 H2]. now apply IH.
Qed.

(** Every handler that reads the current state keeps the thumbs
    [minGap] apart; only a [PointerMove] is left out. *)
Lemma handle_ordered p c e :
  gapRoom p (current c) -> ordered p (current c) ->
  match e with PointerMove _ => False | _ => True end ->
  ordered p (current (handle p c e)).
Proof.
  intros Hroom Hord He.
  assert (Hl : left (current c) + minGap p <= max p) by (unfold gapRoom in Hroom; lia).
  assert (Htrack : forall raw, ordered p (trackPointerDown p (current c) raw)).
  { intros raw. unfold trackPointerDown.
    destruct (Z.abs _ <=? Z.abs _);
      [apply setLeftClamped_ordered | now apply setRightClamped_ordered]. }
  destruct e as [which raw|raw|raw| |which k]; simpl.
  - apply Htrack.
  - apply Htrack.
  - destruct He.
  - unfold stopDragging. now destruct (listeners c).
  - unfold onKeyDown. destruct (keyTarget p (current c) which k); [|assumption].
    destruct which; [apply setLeftClamped_ordered | now apply setRightClamped_ordered].
Qed.

Lemma run_ordered p events c :
  gapRoom p (current c) ->
  Forall (fun l => gapRoom p (snd l)) (listeners c) ->
  ordered p (current c) -> noPointerMove events ->
  ordered p (current (run p c events)).
Proof.
  revert c. induction events as [|e events IH]; intros c Hcur Hl Hord Hno; simpl.
  - assumption.
  - inversion Hno as [|e' events' He Hno']; subst.
    destruct (handle_gapRoom p c e Hcur Hl) as [H1 H2].
    apply IH; try assumption. now apply handle_ordered.
Qed.

(** During a drag with one listener, the moves change the dragged thumb
    only, and the listener stays the one attached at the pointer-down. *)
Lemma drag_moves p moves c m s which :
  listeners c = [(m, s)] -> activeThumb c = Some which ->
  listeners (run p c (map PointerMove moves)) = [(m, s)] /\
  activeThumb (run p c (map PointerMove moves)) = Some which /\
  match which with
  | Left => right (current (run p c (map PointerMove moves))) = right (current c)
  | Right => left (current (run p c (map PointerMove moves))) = left (current c)
  end.
Proof.
  revert c. induction moves as [|raw moves IH]; intros c Hl Ha.
  - simpl. repeat split; try assumption. now destruct which.
  - cbn [map]. unfold run. cbn [fold_left].
    fold (run p (handle p c (PointerMove raw)) (map PointerMove moves)).
    destruct (IH (handle p c (PointerMove raw))) as (H1 & H2 & H3);
      [exact Hl | exact Ha |].
    split; [exact H1|]. split; [exact H2|].
    assert (Hc : match which with
                 | Left => right (current (handle p c (PointerMove raw)))
                           = right (current c)
                 | Right => left (current (handle p c (PointerMove raw)))
                            = left (current c)
                 end).
    { cbn [handle rerender current]. rewrite Hl, Ha. destruct which; reflexivity. }
    destruct which; congruence.
Qed.

(** C6. The ordering [left + minGap <= right] is lost by a drag.  With
    [min = 0], [max = 60], [step = 1] and [minGap = 1], the thumbs are
    brought to 10 and 12 by a click on the track and two key presses.
    The pointer then goes down on the right thumb a little left of its
    centre, at value 11.3: [startDragging] attaches the
    [handlePointerMove] of this render, which reads [left = 10], and the
    track's handler, run for the same pointer-down, moves the left thumb
    to 11.  The first move of the pointer sets the right thumb to
    [clamp(11, 10 + 1, 60) = 11]: both thumbs are at 11. *)
Lemma rangeSlider_drag_breaks_minGap :
  let p := mkProps 0 60 1 1 in
  let before :=
    run p (mount p 0 60)
      [TrackPointerDown 10; KeyDown Right Home; KeyDown Right ArrowRight] in
  let pressed := handle p before (ThumbPointerDown Right (113 # 10)) in
  let moved := handle p pressed (PointerMove (113 # 10)) in
  current before = mkState 10 12 /\ ordered p (current before) /\
  inRange p (current before) /\
  current pressed = mkState 11 12 /\ listeners pressed = [(3%nat, mkState 10 12)] /\
  current moved = mkState 11 11 /\ ~ ordered p (current moved).
Proof.
  vm_compute. repeat split; try discriminate.
  intros H. apply H. reflexivity.
Qed.

Example drag_left_to_right_thumb :
  handlePointerMove (mkProps 0 60 1 1) (mkState 10 60) (Some Left) 60
  = mkState 59 60.
Proof. reflexivity. Qed.

(** C7, as stated, fails for the dashboard's start/end sliders: a start
    value at or beyond the end value is ignored, so the thumb stays
    where it was instead of stopping next to the other thumb. *)
Lemma dualRangeSlider_rejects_counterexample :
  let s := DualRangeSlider.mkState 10 20 in
  let s' := DualRangeSlider.handleStartChange s 25 in
  s' = s /\ DualRangeSlider.startValue s' = 10 /\
  DualRangeSlider.startValue s' <> 20 /\ DualRangeSlider.startValue s' <> 19.
Proof. repeat split; discriminate. Qed.

(** C7, amended. In the [RangeSlider] of the v2 page with a non-zero
    step, from a state [s] with [left + minGap <= right <= max] and no
    drag in progress, a requested value beyond the other thumb is
    clamped: asked past [right - minGap] the left thumb stops exactly at
    [right - minGap], asked below [left + minGap] the right thumb stops
    exactly at [left + minGap].  This holds for a key press, for a click
    on the track, and for a drag (a pointer-down on the thumb followed
    by any number of moves) in which the pointer-down has left the other
    thumb where it was.  In the dashboard's start/end sliders the same
    request is rejected and the state is unchanged. *)
Theorem thumb_update_clamps (p : props) (s : state) (n : nat)
    (Hstep : step p <> 0) (Hord : ordered p s) (Hmax : right s <= max p) :
  let idle := mkComponent s n None [] in
  (forall k next, keyTarget p s Left k = Some next ->
     right s - minGap p < snap p next ->
     current (handle p idle (KeyDown Left k))
       = mkState (right s - minGap p) (right s)) /\
  (forall k next, keyTarget p s Right k = Some next ->
     snap p next < left s + minGap p ->
     current (handle p idle (KeyDown Right k))
       = mkState (left s) (left s + minGap p)) /\
  (forall raw,
     Z.abs (clientXToValue p raw - left s) <= Z.abs (clientXToValue p raw - right s) ->
     right s - minGap p < clientXToValue p raw ->
     current (handle p idle (TrackPointerDown raw))
       = mkState (right s - minGap p) (right s)) /\
  (forall raw,
     Z.abs (clientXToValue p raw - right s) < Z.abs (clientXToValue p raw - left s) ->
     clientXToValue p raw < left s + minGap p ->
     current (handle p idle (TrackPointerDown raw))
       = mkState (left s) (left s + minGap p)) /\
  (forall raw0 moves raw,
     right (trackPointerDown p s raw0) = right s ->
     right s - minGap p < clientXToValue p raw ->
     current (run p idle (ThumbPointerDown Left raw0
                            :: map PointerMove moves ++ [PointerMove raw]))
       = mkState (right s - minGap p) (right s)) /\
  (forall raw0 moves raw,
     left (trackPointerDown p s raw0) = left s ->
     clientXToValue p raw < left s + minGap p ->
     current (run p idle (ThumbPointerDown Right raw0
                            :: map PointerMove moves ++ [PointerMove raw]))
       = mkState (left s) (left s + minGap p)) /\
  (forall d newStart, DualRangeSlider.endValue d <= newStart ->
     DualRangeSlider.handleStartChange d newStart = d) /\
  (forall d newEnd, newEnd <= DualRangeSlider.startValue d ->
     DualRangeSlider.handleEndChange d newEnd = d).
Proof.
  intros idle. unfold ordered in Hord.
  split; [|split; [|split; [|split; [|split; [|split; [|split]]]]]].
  - intros k next Hk Hv. simpl. unfold onKeyDown. rewrite Hk.
    unfold setLeftClamped, clamp. f_equal. lia.
  - intros k next Hk Hv. simpl. unfold onKeyDown. rewrite Hk.
    unfold setRightClamped, clamp. f_equal. lia.
  - intros raw Hnear Hv. simpl. unfold trackPointerDown.
    destruct (Z.abs _ <=? Z.abs _) eqn:E; [|apply Z.leb_gt in E; lia].
    unfold setLeftClamped, clamp. f_equal. lia.
  - intros raw Hnear Hv. simpl. unfold trackPointerDown.
    destruct (Z.abs _ <=? Z.abs _) eqn:E; [apply Z.leb_le in E; lia|].
    unfold setRightClamped, clamp. f_equal. lia.
  - intros raw0 moves raw Hother Hv.
    unfold run. cbn [fold_left]. rewrite fold_left_app. cbn [fold_left].
    set (c1 := handle p idle (ThumbPointerDown Left raw0)).
    destruct (drag_moves p moves c1 n s Left) as (H1 & H2 & H3);
      [reflexivity | reflexivity |].
    fold (run p c1 (map PointerMove moves)).
    set (c2 := run p c1 (map PointerMove moves)) in *.
    cbn [handle rerender current]. rewrite H1, H2.
    cbn [map snd fold_left listenerMove handlePointerMove].
    rewrite H3. unfold c1. cbn [handle rerender current]. cbn [idle current].
    rewrite Hother. unfold setLeftClamped, clamp. cbn [left]. f_equal. lia.
  - intros raw0 moves raw Hother Hv.
    unfold run. cbn [fold_left]. rewrite fold_left_app. cbn [fold_left].
    set (c1 := handle p idle (ThumbPointerDown Right raw0)).
    destruct (drag_moves p moves c1 n s Right) as (H1 & H2 & H3);
      [reflexivity | reflexivity |].
    fold (run p c1 (map PointerMove moves)).
    set (c2 := run p c1 (map PointerMove moves)) in *.
    cbn [handle rerender current]. rewrite H1, H2.
    cbn [map snd fold_left listenerMove handlePointerMove].
    rewrite H3. unfold c1. cbn [handle rerender current]. cbn [idle current].
    rewrite Hother. unfold setRightClamped, clamp. cbn [right]. f_equal. lia.
  - intros d newStart H. unfold DualRangeSlider.handleStartChange.
    destruct (newStart <? DualRangeSlider.endValue d) eqn:E; [|reflexivity].
    apply Z.ltb_lt in E. lia.
  - intros d newEnd H. unfold DualRangeSlider.handleEndChange.
    destruct (DualRangeSlider.startValue d <? newEnd) eqn:E; [|reflexivity].
    apply Z.ltb_lt in E. lia.
Qed.

Lemma thumb_update_clamps_witness :
  current (run (mkProps 0 60 1 1) (mkComponent (mkState 10 60) 0 None [])
             [ThumbPointerDown Left 10; PointerMove 30; PointerMove 60])
    = mkState 59 60 /\
  current (handle (mkProps 0 60 1 1) (mkComponent (mkState 55 60) 0 None [])
             (KeyDown Left PageUp))
    = mkState 59 60.
Proof.
  assert (Hstep : step (mkProps 0 60 1 1) <> 0) by discriminate.
  split.
  - assert (Hord : ordered (mkProps 0 60 1 1) (mkState 10 60))
      by (unfold ordered; simpl; lia).
    assert (Hmax : right (mkState 10 60) <= max (mkProps 0 60 1 1))
      by (simpl; lia).
    pose proof (thumb_update_clamps (mkProps 0 60 1 1) (mkState 10 60) 0
                  Hstep Hord Hmax) as H.
    cbv zeta in H. destruct H as (_ & _ & _ & _ & Hdrag & _).
    apply (Hdrag 10%Q [30%Q] 60%Q); reflexivity.
  - assert (Hord : ordered (mkProps 0 60 1 1) (mkState 55 60))
      by (unfold ordered; simpl; lia).
    assert (Hmax : right (mkState 55 60) <= max (mkProps 0 60 1 1))
      by (simpl; lia).
    pose proof (thumb_update_clamps (mkProps 0 60 1 1) (mkState 55 60) 0
                  Hstep Hord Hmax) as H.
    cbv zeta in H. destruct H as (Hkey & _).
    apply (Hkey PageUp 65); reflexivity.
Defined.

End RangeSliderFacts.

(* ================================================================= *)
(** ** Part III. Further properties of the code *)
(* ================================================================= *)

(** *** Country code tables *)

(** X1. A numeric ISO code and the 2-letter code it is mapped to display
    the same country name; mapping a code twice, or naming a name, changes
    nothing more. *)
Theorem country_tables_consistent (isoCode : string) :
  getCountryName (getCountryCodeMapping isoCode) = getCountryName isoCode /\
  getCountryCodeMapping (getCountryCodeMapping isoCode) = getCountryCodeMapping isoCode /\
  getCountryName (getCountryName isoCode) = getCountryName isoCode.
Proof.
  split; [|split].
  - unfold getCountryCodeMapping, countryMapping. cbn -[String.eqb getCountryName].
    split_on_key isoCode. reflexivity.
  - unfold getCountryCodeMapping at 2. unfold countryMapping. cbn -[String.eqb getCountryCodeMapping].
    split_on_key isoCode.
    unfold getCountryCodeMapping, countryMapping. cbn -[String.eqb].
    repeat match goal with H : String.eqb _ isoCode = false |- _ => rewrite H; clear H end.
    reflexivity.
  - unfold getCountryName at 2. unfold countryNames. cbn -[String.eqb getCountryName].
    split_on_key isoCode.
    unfold getCountryName, countryNames. cbn -[String.eqb].
    repeat match goal with H : String.eqb _ isoCode = false |- _ => rewrite H; clear H end.
    reflexivity.
Qed.

(** *** Rank: bounds, order and the other rank computations *)

Section RankExtras.

Import Ranker RankViews.

Lemma countGreater_le_length l v : 0 <= countGreater l v <= Z.of_nat (List.length l).
Proof.
  unfold countGreater. pose proof (filter_length_le (fun x => v <? x) l). lia.
Qed.

Lemma countGreater_zero_iff l v : countGreater l v = 0 <-> Forall (fun x => x <= v) l.
Proof.
  induction l as [|x l IH].
  - split; [constructor | reflexivity].
  - rewrite countGreater_cons. pose proof (countGreater_le_length l v) as Hb.
    destruct (v <? x) eqn:E.
    + apply Z.ltb_lt in E. split; [lia|]. intros H. inversion H; subst. lia.
    + apply Z.ltb_ge in E. rewrite Z.add_0_l, IH. split.
      * intros H. now constructor.
      * intros H. now inversion H.
Qed.

Lemma countGreater_antitone l v w : v <= w -> countGreater l w <= countGreater l v.
Proof.
  intros Hvw. induction l as [|x l IH].
  - reflexivity.
  - rewrite !countGreater_cons.
    destruct (w <? x) eqn:E1; destruct (v <? x) eqn:E2; lia.
Qed.

(** X2. The rank of the selected chain in a group lies between 1 and one
    more than the number of peers, and is at most the number of peers
    when some key matches the selected chain up to case. *)
Theorem rankInGroup_bounds (chains : JsObject.t Z) (chain : string) :
  1 <= rankInGroup chains chain <= 1 + peerCount chains /\
  ((exists e, In e chains /\ matchesKey chain e = true) ->
   rankInGroup chains chain <= peerCount chains).
Proof.
  rewrite rankInGroup_formula.
  assert (Hlen : peerCount chains = Z.of_nat (List.length (JsObject.values chains))).
  { unfold peerCount, JsObject.keys, JsObject.values. now rewrite !length_map. }
  rewrite Hlen. split.
  - pose proof (countGreater_le_length (JsObject.values chains)
                  (selectedChainUsers chains chain)). lia.
  - intros H. destruct (selectedChainUsers_some chains chain H) as [e (Hin & _ & Hv)].
    rewrite Hv. unfold countGreater.
    assert (Hlt : (List.length (filter (fun x => Z.ltb (snd e) x) (JsObject.values chains))
                   < List.length (JsObject.values chains))%nat).
    { apply (filter_length_lt _ _ (snd e)).
      - unfold JsObject.values. now apply in_map.
      - apply Z.ltb_irrefl. }
    lia.
Qed.

(** X3. The selected chain is ranked first exactly when no peer value
    exceeds its value, and a subject with a larger value never gets a
    worse rank. *)
Theorem rankInGroup_order (chains : JsObject.t Z) (chain : string) :
  (rankInGroup chains chain = 1 <->
   forall e, In e chains -> snd e <= selectedChainUsers chains chain) /\
  (forall other,
     selectedChainUsers chains chain <= selectedChainUsers chains other ->
     rankInGroup chains other <= rankInGroup chains chain).
Proof.
  split.
  - rewrite rankInGroup_formula.
    assert (H1 : 1 + countGreater (JsObject.values chains) (selectedChainUsers chains chain) = 1
                 <-> countGreater (JsObject.values chains) (selectedChainUsers chains chain) = 0)
      by lia.
    rewrite H1, countGreater_zero_iff, Forall_forall.
    unfold JsObject.values. split.
    + intros H e He. apply H. now apply in_map.
    + intros H x Hx. apply in_map_iff in Hx. destruct Hx as [e [<- He]]. now apply H.
  - intros other H. rewrite !rankInGroup_formula.
    pose proof (countGreater_antitone (JsObject.values chains) _ _ H). lia.
Qed.

Lemma toLowerCase_nonempty s : s <> "" -> toLowerCase s <> "".
Proof. destruct s; [congruence | discriminate]. Qed.

Lemma truthy_Some_iff s : truthy (Some s) = true <-> s <> "".
Proof.
  unfold truthy. rewrite negb_true_iff. apply String.eqb_neq.
Qed.

Lemma selectedChainUsersFind_unique chains chain :
  NoDup (map toLowerCase (JsObject.keys chains)) ->
  truthy (Some chain) = true ->
  selectedChainUsersFind chains chain = selectedChainUsers chains chain.
Proof.
  intros Hnd Hchain. apply truthy_Some_iff in Hchain.
  unfold selectedChainUsersFind, selectedChainKey, selectedChainUsers, JsObject.entries.
  cbv zeta.
  induction chains as [|[k v] rest IH]; [reflexivity|].
  cbn [JsObject.keys map fst] in Hnd. inversion Hnd as [|? ? Hnotin Hnd']; subst.
  cbn [JsObject.keys map fst snd find fold_left].
  destruct (String.eqb (toLowerCase k) (toLowerCase chain)) eqn:E.
  - apply String.eqb_eq in E.
    assert (Hk : truthy (Some k) = true).
    { apply truthy_Some_iff. intros ->. simpl in E.
      symmetry in E. now apply (toLowerCase_nonempty chain). }
    rewrite Hk. cbn [JsObject.get]. rewrite String.eqb_refl. cbn [orZero].
    symmetry. apply selectedChainUsers_fold.
    intros e He. unfold matchesKey.
    destruct (String.eqb (toLowerCase (fst e)) (toLowerCase chain)) eqn:E'; [|reflexivity].
    apply String.eqb_eq in E'. exfalso. apply Hnotin. rewrite E, <- E'.
    apply in_map. unfold JsObject.keys. now apply in_map.
  - rewrite <- (IH Hnd').
    fold (JsObject.keys rest).
    destruct (find _ (JsObject.keys rest)) as [k'|] eqn:F; [|reflexivity].
    apply find_some in F. destruct F as [_ F].
    destruct (truthy (Some k')); [|reflexivity].
    assert (Hne : String.eqb k k' = false).
    { apply String.eqb_neq. intros ->. congruence. }
    cbn [JsObject.get]. now rewrite Hne.
Qed.

(** X4. The category ranking of the map panel, which looks the selected
    chain up with [find] (first match), equals the ranking of the
    category table, which keeps the last match, whenever no two chain
    keys of the group are equal up to case. *)
Theorem categoryRanking_agrees (chains : JsObject.t Z) (chain : string)
    (Hkeys : NoDup (map toLowerCase (JsObject.keys chains)))
    (Hchain : truthy (Some chain) = true) :
  categoryRanking chains chain = rankInGroup chains chain /\
  categoryRanking chains chain =
    1 + countGreater (JsObject.values chains) (selectedChainUsers chains chain).
Proof.
  assert (E : categoryRanking chains chain = rankInGroup chains chain).
  { unfold categoryRanking, rankInGroup. cbv zeta.
    now rewrite selectedChainUsersFind_unique. }
  split; [exact E|]. rewrite E. apply rankInGroup_formula.
Qed.

Lemma categoryRanking_agrees_witness :
  categoryRanking [("Ethereum", 100); ("polygon", 300)] "ethereum" =
  rankInGroup [("Ethereum", 100); ("polygon", 300)] "ethereum".
Proof.
  apply (categoryRanking_agrees [("Ethereum", 100); ("polygon", 300)] "ethereum").
  - simpl. repeat constructor; simpl; intuition discriminate.
  - reflexivity.
Defined.

Lemma tooltipRankLoop_count l v r :
  tooltipRankLoop l v r = r + countGreater l v.
Proof.
  revert r. induction l as [|x l IH]; intros r; simpl.
  - unfold countGreater. simpl. lia.
  - rewrite IH, countGreater_cons. destruct (v <? x); lia.
Qed.

(** X5. The rank shown in the chart tooltips, a full scan of the unsorted
    values, is the rank the tables compute with a descending sort and an
    early exit: one plus the number of strictly greater values; for a
    value that is among the values it lies between 1 and their number. *)
Theorem tooltipRank_agrees (allValues : list Z) (currentValue : Z) :
  tooltipRank allValues currentValue =
    rankLoop (sortDesc allValues) currentValue 1 /\
  tooltipRank allValues currentValue = 1 + countGreater allValues currentValue /\
  (In currentValue allValues ->
   1 <= tooltipRank allValues currentValue <= Z.of_nat (List.length allValues)).
Proof.
  unfold tooltipRank. rewrite tooltipRankLoop_count.
  split; [|split].
  - rewrite rankLoop_descending by apply sortDesc_descending.
    now rewrite countGreater_sortDesc.
  - reflexivity.
  - intros Hin. unfold countGreater.
    pose proof (filter_length_lt (fun x => currentValue <? x) allValues currentValue
                  Hin (Z.ltb_irrefl _)). lia.
Qed.

End RankExtras.

(** *** The rank of the totals card *)

Section CardRank.

Import Aggregator Ranker RankViews.

Lemma fold_addRow_chain l b :
  Bucket.chain (fold_left (fun b r => addRow r b) l b) = Bucket.chain b.
Proof. revert b. induction l as [|r l IH]; intros b; simpl; [reflexivity|]. now rewrite IH. Qed.

Lemma rawData_chain c data b :
  In b (rawData c data) -> Bucket.chain b = chain c.
Proof.
  intros Hb. apply rawData_in in Hb. rewrite aggregateByDate_get in Hb.
  destruct (rowsOf (Bucket.date b) data) as [|r0 l0]; [discriminate|].
  injection Hb as <-. now rewrite fold_addRow_chain.
Qed.

Lemma chainTotalsOf_one_chain ch l t :
  truthy (Some ch) = true ->
  (forall b, In b l -> Bucket.chain b = ch) ->
  fold_left
    (fun acc row =>
       if truthy (Some (Bucket.chain row))
       then JsObject.set acc (Bucket.chain row)
              (orZero (JsObject.get acc (Bucket.chain row)) + Bucket.api_calls row)
       else acc)
    l [(ch, t)]
  = [(ch, t + Zsum (map Bucket.api_calls l))].
Proof.
  intros Hch. revert t. induction l as [|b l IH]; intros t Hall.
  - simpl. now rewrite Z.add_0_r.
  - cbn [fold_left map Zsum].
    rewrite (Hall b (or_introl eq_refl)), Hch.
    cbn [JsObject.get JsObject.set]. rewrite String.eqb_refl. cbn [orZero].
    rewrite IH by (intros; apply Hall; now right).
    f_equal. f_equal. lia.
Qed.

Lemma existsb_filter {A : Type} (f : A -> bool) (l : list A) :
  existsb f l = match filter f l with [] => false | _ :: _ => true end.
Proof.
  induction l as [|x l IH]; simpl; [reflexivity|].
  destruct (f x); [reflexivity | exact IH].
Qed.

Lemma globalRank_single ch t :
  truthy (Some ch) = true -> globalRank [(ch, t)] (Some ch) = RankNum 1.
Proof.
  intros Hch. unfold globalRank, currentChainKey, JsObject.has.
  rewrite Hch. cbn [JsObject.keys map fst find].
  rewrite String.eqb_refl, Hch.
  cbn [JsObject.get JsObject.values map snd sortDesc fold_right insertDesc orZero].
  rewrite String.eqb_refl. cbn [orZero filter List.length].
  destruct (t =? 0); [reflexivity|]. now rewrite Z.ltb_irrefl.
Qed.

(** X6. On the totals card, the rank computed from the rows that
    [fetchData] stored for the selected chain is [#1] as soon as one
    stored date lies in the date range, and ['-'] otherwise: every stored
    row carries the selected chain, so the chain has no peer to be
    compared with. *)
Theorem cardRank_of_fetchData (c : ctx) (data : list Row.t)
    (startDate endDate : string)
    (Hchain : truthy (Some (chain c)) = true) :
  cardRank (rawData c data) startDate endDate (Some (chain c)) =
  if existsb (inDateRange startDate endDate) (rawData c data)
  then RankNum 1 else Dash.
Proof.
  unfold cardRank. cbv zeta.
  assert (Hall : forall b, In b (filter (inDateRange startDate endDate) (rawData c data)) ->
                           Bucket.chain b = chain c).
  { intros b Hb. apply filter_In in Hb. now apply (rawData_chain c data). }
  rewrite existsb_filter.
  destruct (filter (inDateRange startDate endDate) (rawData c data)) as [|b l].
  - reflexivity.
  - unfold chainTotalsOf. cbn [fold_left].
    rewrite (Hall b (or_introl eq_refl)), Hchain.
    cbn [JsObject.empty JsObject.get JsObject.set orZero].
    rewrite chainTotalsOf_one_chain; [|assumption|intros; apply Hall; now right].
    now apply globalRank_single.
Qed.

Lemma cardRank_of_fetchData_witness :
  cardRank (rawData sampleCtx sampleRows) "2025-06-01" "2025-06-30" (Some "ethereum")
  = RankNum 1.
Proof.
  apply (cardRank_of_fetchData sampleCtx sampleRows "2025-06-01" "2025-06-30").
  reflexivity.
Defined.

End CardRank.

(** *** Fastest-growing selection: the first maximum *)

Section FastestMaximum.

Import Growth GrowthViews.

Variables currTotals prevTotals : JsObject.t Z.

Lemma fastestStep_rate st k :
  fastestStep currTotals prevTotals st k =
  match growthRateOf currTotals prevTotals k with
  | Some r => if exceeds r (snd st) then (k, Finite r) else st
  | None => st
  end.
Proof.
  unfold fastestStep, growthRateOf.
  destruct (0 <? orZero (JsObject.get prevTotals k)); [reflexivity|].
  destruct (0 <? orZero (JsObject.get currTotals k)); reflexivity.
Qed.

Lemma firstMaximum_step processed st k :
  firstMaximum currTotals prevTotals processed st ->
  firstMaximum currTotals prevTotals (processed ++ [k])
    (fastestStep currTotals prevTotals st k).
Proof.
  intros Hinv. rewrite fastestStep_rate.
  destruct (growthRateOf currTotals prevTotals k) as [r|] eqn:Hr.
  - unfold firstMaximum in Hinv. destruct st as [name [|g]]; simpl in Hinv.
    + destruct Hinv as [_ Hnone]. simpl. unfold firstMaximum. simpl.
      exists processed, []. split; [reflexivity|]. split; [assumption|]. split.
      * intros k' r' Hin Hk'. rewrite (Hnone k' Hin) in Hk'. discriminate.
      * intros k' r' [].
    + destruct Hinv as (before & after & Hp & Hname & Hb & Ha).
      simpl. destruct (Qgtb r g) eqn:E.
      * apply Qgtb_lt in E. unfold firstMaximum. simpl.
        exists processed, []. split; [reflexivity|]. split; [assumption|]. split.
        -- intros k' r' Hin Hk'. rewrite Hp in Hin. apply in_app_or in Hin.
           destruct Hin as [Hin|[<-|Hin]].
           ++ specialize (Hb k' r' Hin Hk'). lra.
           ++ rewrite Hname in Hk'. injection Hk' as <-. exact E.
           ++ specialize (Ha k' r' Hin Hk'). lra.
        -- intros k' r' [].
      * apply Qgtb_not_lt in E. unfold firstMaximum. simpl.
        exists before, (after ++ [k]). split.
        { rewrite Hp, <- app_assoc. reflexivity. }
        split; [assumption|]. split; [assumption|].
        intros k' r' Hin Hk'. apply in_app_or in Hin.
        destruct Hin as [Hin|[<-|[]]]; [now apply (Ha k')|].
        rewrite Hr in Hk'. injection Hk' as <-. exact E.
  - unfold firstMaximum in *. destruct (snd st) as [|g].
    + destruct Hinv as [Hname Hnone]. split; [assumption|].
      intros k' Hin. apply in_app_or in Hin.
      destruct Hin as [Hin|[<-|[]]]; auto.
    + destruct Hinv as (before & after & Hp & Hname & Hb & Ha).
      exists before, (after ++ [k]). split.
      { rewrite Hp, <- app_assoc. reflexivity. }
      split; [assumption|]. split; [assumption|].
      intros k' r' Hin Hk'. apply in_app_or in Hin.
      destruct Hin as [Hin|[<-|[]]]; [now apply (Ha k')|]. congruence.
Qed.

Lemma firstMaximum_fold ks :
  firstMaximum currTotals prevTotals ks
    (fold_left (fastestStep currTotals prevTotals) ks ("", NegInfinity)).
Proof.
  induction ks as [|k ks IH] using rev_ind.
  - simpl. unfold firstMaximum. simpl. split; [reflexivity | intros k []].
  - rewrite fold_left_app. simpl. now apply firstMaximum_step.
Qed.

(** X7. When the fastest-growing loop selects a key, its rate is the
    greatest of all rates compared by the loop, and among keys with that
    greatest rate it is the first in the enumeration order of the
    current totals: every earlier key has a strictly smaller rate, every
    later key a smaller or equal one. *)
Theorem fastest_is_first_maximum (name : string) (g : Q)
    (Hsel : fastest currTotals prevTotals = (name, Finite g)) :
  exists before after,
    JsObject.keys currTotals = before ++ name :: after /\
    growthRateOf currTotals prevTotals name = Some g /\
    (forall k r, In k before ->
       growthRateOf currTotals prevTotals k = Some r -> (r < g)%Q) /\
    (forall k r, In k after ->
       growthRateOf currTotals prevTotals k = Some r -> (r <= g)%Q).
Proof.
  pose proof (firstMaximum_fold (JsObject.keys currTotals)) as H.
  unfold fastest in Hsel. rewrite Hsel in H. exact H.
Qed.

End FastestMaximum.

Section GrowthSums.

Import Growth GrowthViews.

Lemma fastest_is_first_maximum_witness :
  exists before after,
    JsObject.keys [("a", 10); ("b", 30); ("c", 60)] = before ++ "b" :: after /\
    growthRateOf [("a", 10); ("b", 30); ("c", 60)] [("a", 5); ("b", 10); ("c", 20)] "b"
      = Some (((inject_Z 30 - inject_Z 10) / inject_Z 10) * 100)%Q /\
    (forall k r, In k before ->
       growthRateOf [("a", 10); ("b", 30); ("c", 60)]
                    [("a", 5); ("b", 10); ("c", 20)] k = Some r ->
       (r < ((inject_Z 30 - inject_Z 10) / inject_Z 10) * 100)%Q) /\
    (forall k r, In k after ->
       growthRateOf [("a", 10); ("b", 30); ("c", 60)]
                    [("a", 5); ("b", 10); ("c", 20)] k = Some r ->
       (r <= ((inject_Z 30 - inject_Z 10) / inject_Z 10) * 100)%Q).
Proof.
  apply (fastest_is_first_maximum
           [("a", 10); ("b", 30); ("c", 60)] [("a", 5); ("b", 10); ("c", 20)] "b").
  reflexivity.
Defined.

Lemma fold_left_add_Zsum l a : fold_left Z.add l a = a + Zsum l.
Proof.
  revert a. induction l as [|x l IH]; intros a; simpl; [lia|]. rewrite IH. lia.
Qed.

Lemma sumBy_total key rows :
  Zsum (JsObject.values (sumBy key rows)) =
  Zsum (map (fun r => match key r with
                      | Some _ => orZero (Row.total_requests r)
                      | None => 0
                      end) rows).
Proof.
  induction rows as [|r l IH] using rev_ind; [reflexivity|].
  rewrite sumBy_snoc, map_app, Zsum_app. simpl.
  destruct (key r) as [k|].
  - pose proof (Zsum_values_set (fun x => x) (sumBy key l) k
                  (orZero (JsObject.get (sumBy key l) k) + orZero (Row.total_requests r)))
      as H.
    rewrite !map_id in H. rewrite H, IH.
    destruct (JsObject.get (sumBy key l) k); simpl; lia.
  - rewrite IH. lia.
Qed.

(** X8. The "calls vs. prior period" percentage compares the sum of
    [total_requests] (null read as 0) over the current rows with the
    same sum over the prior rows, both restricted to the country of the
    cross-filter when one is set, and over all rows when none is set. *)
Theorem percentChangeCalls_sums (currData prevData : list Row.t)
    (filteredByCountry : string) :
  percentChangeCalls currData prevData filteredByCountry =
    percentageChange
      (inject_Z (Zsum (map (fun r => orZero (Row.total_requests r))
                           (restrict filteredByCountry countryIs currData))))
      (inject_Z (Zsum (map (fun r => orZero (Row.total_requests r))
                           (restrict filteredByCountry countryIs prevData)))) /\
  percentChangeCalls currData prevData "" =
    percentageChange
      (inject_Z (Zsum (map (fun r => orZero (Row.total_requests r)) currData)))
      (inject_Z (Zsum (map (fun r => orZero (Row.total_requests r)) prevData))).
Proof.
  assert (H : forall f,
    percentChangeCalls currData prevData f =
    percentageChange
      (inject_Z (Zsum (map (fun r => orZero (Row.total_requests r))
                           (restrict f countryIs currData))))
      (inject_Z (Zsum (map (fun r => orZero (Row.total_requests r))
                           (restrict f countryIs prevData))))).
  { intros f. unfold percentChangeCalls. cbv zeta.
    rewrite !fold_left_add_Zsum, !sumBy_total. reflexivity. }
  split; [apply H|]. rewrite H. reflexivity.
Qed.

End GrowthSums.

(** *** Dashboard sliders *)

Section DashboardSliderFacts.

Import Dates DashboardSliders.

Lemma sliderValueToDate_shift (k : Z) :
  sliderValueToDate k = formatDate DATE_START + k.
Proof.
  unfold sliderValueToDate, DATE_START.
  replace (dateOfDay (dayOfCivil 2025 6 1) + k * MS_PER_DAY)
    with (dateOfDay (dayOfCivil 2025 6 1 + k)) by (unfold dateOfDay; lia).
  now rewrite !formatDate_dateOfDay.
Qed.

Lemma step_in_bounds s e :
  validEvent e ->
  0 <= startSliderValue s < sliderValue s /\ sliderValue s <= NUM_DAYS ->
  0 <= startSliderValue (step s e) < sliderValue (step s e) /\
  sliderValue (step s e) <= NUM_DAYS.
Proof.
  rewrite NUM_DAYS_value. intros Hv Hs.
  destruct e as [n|n| | |]; simpl in *; try rewrite NUM_DAYS_value in *; try lia.
  - destruct (n <? sliderValue s) eqn:E; simpl; lia.
  - destruct (startSliderValue s <? n) eqn:E; simpl; lia.
Qed.

(** X9. From the initial thumbs 0 and [NUM_DAYS], after any sequence of
    quick-jump buttons and slider inputs (each input between 0 and
    [NUM_DAYS], as the range inputs deliver), the start thumb stays
    strictly below the end thumb, both stay in [0, NUM_DAYS], and the two
    dates derived from them satisfy start date < end date within
    2025-06-01 .. 2025-07-31. *)
Theorem dashboard_sliders_ordered (events : list event)
    (Hvalid : Forall validEvent events) :
  let s := run initial events in
  0 <= startSliderValue s < sliderValue s /\ sliderValue s <= NUM_DAYS /\
  formatDate DATE_START <= startDate s /\ startDate s < endDate s /\
  endDate s <= formatDate DATE_END.
Proof.
  cbv zeta.
  assert (H : 0 <= startSliderValue (run initial events) < sliderValue (run initial events)
              /\ sliderValue (run initial events) <= NUM_DAYS).
  { unfold run.
    assert (H0 : 0 <= startSliderValue initial < sliderValue initial
                 /\ sliderValue initial <= NUM_DAYS)
      by (simpl; rewrite NUM_DAYS_value; lia).
    revert H0. generalize initial.
    induction Hvalid as [|e events He Hevents IH]; intros s Hs; simpl.
    - exact Hs.
    - apply IH. now apply step_in_bounds. }
  unfold startDate, endDate. rewrite !sliderValueToDate_shift.
  assert (Hend : formatDate DATE_END = formatDate DATE_START + NUM_DAYS) by reflexivity.
  rewrite Hend. lia.
Qed.

Lemma dashboard_sliders_ordered_witness :
  let s := run initial [StartInput 20; EndInput 10; Prev7Days; EndInput 55; StartInput 58] in
  0 <= startSliderValue s < sliderValue s /\ sliderValue s <= NUM_DAYS /\
  formatDate DATE_START <= startDate s /\ startDate s < endDate s /\
  endDate s <= formatDate DATE_END.
Proof.
  apply (dashboard_sliders_ordered
           [StartInput 20; EndInput 10; Prev7Days; EndInput 55; StartInput 58]).
  repeat constructor; simpl; rewrite ?NUM_DAYS_value; lia.
Defined.

End DashboardSliderFacts.

(** *** Range slider: snapping, keys and styling *)

Section RangeSliderExtras.

Import RangeSlider SliderView.

Lemma Math_round_quotient (a s : Z) :
  s <> 0 -> Math_round (inject_Z a / inject_Z s) = (2 * a + s) / (2 * s).
Proof.
  intros Hs. unfold Math_round. rewrite Zdiv_Qdiv. apply Qfloor_comp.
  rewrite inject_Z_plus, !inject_Z_mult. field.
  intros H. apply Hs. now apply (inject_Z_injective s 0).
Qed.

Lemma snap_quotient p v :
  step p <> 0 -> snap p v = (2 * v + step p) / (2 * step p) * step p.
Proof. intros Hs. unfold snap, snapQ. now rewrite Math_round_quotient. Qed.

Lemma snap_multiple p k : step p <> 0 -> snap p (k * step p) = k * step p.
Proof.
  intros Hs. unfold snap, snapQ. now rewrite Math_round_exact_quotient.
Qed.

(** X10. For a non-zero step, [snap] returns a multiple of the step that is
    at most half a step away from its argument; it leaves multiples of
    the step unchanged, so snapping twice is snapping once. *)
Theorem snap_nearest_multiple (p : props) (v : Z) (Hstep : step p <> 0) :
  (step p | snap p v) /\
  2 * Z.abs (snap p v - v) <= Z.abs (step p) /\
  snap p (snap p v) = snap p v /\
  ((step p | v) -> snap p v = v).
Proof.
  split; [|split; [|split]].
  - rewrite snap_quotient by assumption. now eexists.
  - rewrite snap_quotient by assumption.
    pose proof (Z.div_mod (2 * v + step p) (2 * step p) ltac:(lia)) as Hdm.
    set (q := (2 * v + step p) / (2 * step p)) in *.
    set (m := (2 * v + step p) mod (2 * step p)) in *.
    destruct (Z_lt_ge_dec 0 (step p)) as [Hpos|Hneg].
    + pose proof (Z.mod_pos_bound (2 * v + step p) (2 * step p) ltac:(lia)) as Hm.
      fold m in Hm. lia.
    + pose proof (Z.mod_neg_bound (2 * v + step p) (2 * step p) ltac:(lia)) as Hm.
      fold m in Hm. lia.
  - rewrite (snap_quotient p v) by assumption. now apply snap_multiple.
  - intros [k ->]. now apply snap_multiple.
Qed.

Lemma snap_nearest_multiple_witness :
  (5 | snap (mkProps 0 100 5 1) 37) /\
  2 * Z.abs (snap (mkProps 0 100 5 1) 37 - 37) <= Z.abs 5 /\
  snap (mkProps 0 100 5 1) (snap (mkProps 0 100 5 1) 37) = snap (mkProps 0 100 5 1) 37.
Proof.
  pose proof (snap_nearest_multiple (mkProps 0 100 5 1) 37 ltac:(discriminate))
    as (H1 & H2 & H3 & _).
  exact (conj H1 (conj H2 H3)).
Defined.

(** X11. From a state with both thumbs inside [[min, max]] and
    [left + minGap <= right], the Home and End keys put a thumb exactly
    on its boundary whenever that boundary is a multiple of the step (as
    it always is for step 1): Home sends the left thumb to [min] and the
    right thumb to [left + minGap]; End sends the right thumb to [max] and
    the left thumb to [right - minGap]. *)
Theorem home_end_reach_boundary (p : props) (s : state)
    (Hstep : step p <> 0) (Hgap : 0 <= minGap p)
    (Hord : ordered p s) (Hrange : inRange p s) :
  ((step p | min p) -> onKeyDown p s Left Home = mkState (min p) (right s)) /\
  ((step p | max p) -> onKeyDown p s Right End_ = mkState (left s) (max p)) /\
  ((step p | right s - minGap p) ->
     onKeyDown p s Left End_ = mkState (right s - minGap p) (right s)) /\
  ((step p | left s + minGap p) ->
     onKeyDown p s Right Home = mkState (left s) (left s + minGap p)).
Proof.
  unfold ordered, inRange in *.
  repeat split; intros [k Hk]; unfold onKeyDown, keyTarget;
    cbv zeta; rewrite Hk, snap_multiple by assumption; rewrite <- Hk;
    unfold setLeftClamped, setRightClamped, clamp; f_equal; lia.
Qed.

Lemma home_end_reach_boundary_witness :
  onKeyDown (mkProps 0 60 1 1) (mkState 10 40) Left Home = mkState 0 40 /\
  onKeyDown (mkProps 0 60 1 1) (mkState 10 40) Right End_ = mkState 10 60.
Proof.
  pose proof (home_end_reach_boundary (mkProps 0 60 1 1) (mkState 10 40)
                ltac:(discriminate) ltac:(simpl; lia)
                ltac:(unfold ordered; simpl; lia)
                ltac:(unfold inRange; simpl; lia)) as (H1 & H2 & _).
  split.
  - apply H1. exists 0. reflexivity.
  - apply H2. exists 60. reflexivity.
Defined.

(** X12. With a positive step and the left thumb on a multiple of the
    step, ArrowRight followed by ArrowLeft brings the slider back to the
    same state, provided the step to the right stays at least [minGap]
    below the right thumb. *)
Theorem arrow_right_then_left (p : props) (s : state)
    (Hstep : 0 < step p) (Hmult : (step p | left s))
    (Hmin : min p <= left s)
    (Hroom : left s + step p <= right s - minGap p) :
  onKeyDown p (onKeyDown p s Left ArrowRight) Left ArrowLeft = s /\
  left (onKeyDown p s Left ArrowRight) = left s + step p.
Proof.
  destruct Hmult as [k Hk].
  assert (Hs : step p <> 0) by lia.
  assert (H1 : onKeyDown p s Left ArrowRight = mkState (left s + step p) (right s)).
  { unfold onKeyDown, keyTarget. cbv zeta.
    replace (left s + 1 * step p) with ((k + 1) * step p) by lia.
    rewrite snap_multiple by assumption.
    unfold setLeftClamped, clamp. f_equal. lia. }
  rewrite H1. split; [|reflexivity].
  unfold onKeyDown, keyTarget. cbv zeta. cbn [left right].
  replace (left s + step p - 1 * step p) with (k * step p) by lia.
  rewrite snap_multiple by assumption.
  unfold setLeftClamped, clamp. cbn [left right].
  destruct s as [l r]. cbn [left right] in *. f_equal. lia.
Qed.

Lemma arrow_right_then_left_witness :
  onKeyDown (mkProps 0 60 5 1)
    (onKeyDown (mkProps 0 60 5 1) (mkState 10 40) Left ArrowRight) Left ArrowLeft
  = mkState 10 40.
Proof.
  apply (arrow_right_then_left (mkProps 0 60 5 1) (mkState 10 40)).
  - simpl. lia.
  - exists 2. reflexivity.
  - simpl. lia.
  - simpl. lia.
Defined.

Lemma pct_monotone p v w :
  min p < max p -> v <= w -> (pct p v <= pct p w)%Q.
Proof.
  intros Hmm Hvw. unfold pct.
  assert (Hd : (0 < inject_Z (max p) - inject_Z (min p))%Q).
  { rewrite Zlt_Qlt in Hmm. lra. }
  apply Qmult_le_compat_r; [|discriminate].
  apply Qmult_le_compat_r.
  - rewrite Zle_Qle in Hvw. lra.
  - apply Qlt_le_weak. now apply Qinv_lt_0_compat.
Qed.

(** X13. For [min < max] and a state with both thumbs inside [[min, max]]
    and [left <= right], the two thumb positions are percentages with
    [0 <= leftPct <= rightPct <= 100], so the highlighted range never has
    a negative width and never sticks out of the track. *)
Theorem thumb_percentages_ordered (p : props) (s : state)
    (Hmm : min p < max p) (Hrange : inRange p s) (Hlr : left s <= right s) :
  (0 <= leftPct p s)%Q /\ (leftPct p s <= rightPct p s)%Q /\
  (rightPct p s <= 100)%Q /\ (0 <= rangeWidth p s)%Q /\ (rangeWidth p s <= 100)%Q.
Proof.
  unfold inRange in Hrange.
  assert (H0 : (pct p (min p) == 0)%Q).
  { unfold pct. field. rewrite Zlt_Qlt in Hmm. lra. }
  assert (H100 : (pct p (max p) == 100)%Q).
  { unfold pct. field. rewrite Zlt_Qlt in Hmm. lra. }
  pose proof (pct_monotone p (min p) (left s) Hmm ltac:(lia)) as Ha.
  pose proof (pct_monotone p (left s) (right s) Hmm Hlr) as Hb.
  pose proof (pct_monotone p (right s) (max p) Hmm ltac:(lia)) as Hc.
  unfold rangeWidth, leftPct, rightPct. repeat split; lra.
Qed.

Lemma thumb_percentages_ordered_witness :
  (0 <= leftPct (mkProps 0 60 1 1) (mkState 15 45))%Q /\
  (leftPct (mkProps 0 60 1 1) (mkState 15 45)
   <= rightPct (mkProps 0 60 1 1) (mkState 15 45))%Q /\
  (rightPct (mkProps 0 60 1 1) (mkState 15 45) <= 100)%Q /\
  (0 <= rangeWidth (mkProps 0 60 1 1) (mkState 15 45))%Q /\
  (rangeWidth (mkProps 0 60 1 1) (mkState 15 45) <= 100)%Q.
Proof.
  apply (thumb_percentages_ordered (mkProps 0 60 1 1) (mkState 15 45)).
  - simpl. lia.
  - unfold inRange. simpl. lia.
  - simpl. lia.
Defined.

(** X14. When the step is not 0, [min <= max], [minGap >= 0] and the two
    default thumbs, once snapped and clamped, are at least [minGap]
    apart, the component mounted with them keeps both thumbs inside
    [[min, max]] through every sequence of pointer and key events, the
    left thumb at most [max - minGap] and the right thumb at least
    [min + minGap]; and through every sequence without a pointer move
    (key presses, clicks on the track, presses and releases of a thumb)
    it keeps [left + minGap <= right]. *)
Theorem rangeSlider_from_defaults (p : props) (defaultLeft defaultRight : Z)
    (events : list event)
    (Hstep : step p <> 0) (Hgap : 0 <= minGap p) (Hmm : min p <= max p)
    (Hord : ordered p (init p defaultLeft defaultRight)) :
  inRange p (current (run p (mount p defaultLeft defaultRight) events)) /\
  left (current (run p (mount p defaultLeft defaultRight) events))
    <= max p - minGap p /\
  min p + minGap p
    <= right (current (run p (mount p defaultLeft defaultRight) events)) /\
  (noPointerMove events ->
   ordered p (current (run p (mount p defaultLeft defaultRight) events))).
Proof.
  assert (Hroom : gapRoom p (current (mount p defaultLeft defaultRight))).
  { apply ordered_inRange_gapRoom; [assumption | now apply init_inRange]. }
  assert (Hl : Forall (fun l => gapRoom p (snd l))
                      (listeners (mount p defaultLeft defaultRight)))
    by constructor.
  destruct (run_gapRoom p events _ Hroom Hl) as [H _].
  split; [now apply gapRoom_inRange|].
  split; [unfold gapRoom in H; lia|].
  split; [unfold gapRoom in H; lia|].
  intros Hno. now apply run_ordered.
Qed.

Lemma rangeSlider_from_defaults_witness :
  inRange (mkProps 0 60 1 1)
    (current (run (mkProps 0 60 1 1) (mount (mkProps 0 60 1 1) (-3) 75)
       [KeyDown Right PageDown; ThumbPointerDown Left 2; PointerMove 80;
        PointerUp; TrackPointerDown (9 # 2)])) /\
  ordered (mkProps 0 60 1 1)
    (current (run (mkProps 0 60 1 1) (mount (mkProps 0 60 1 1) (-3) 75)
       [KeyDown Right PageDown; TrackPointerDown (9 # 2); KeyDown Left End_])).
Proof.
  assert (Hstep : step (mkProps 0 60 1 1) <> 0) by discriminate.
  assert (Hgap : 0 <= minGap (mkProps 0 60 1 1)) by (simpl; lia).
  assert (Hmm : min (mkProps 0 60 1 1) <= max (mkProps 0 60 1 1)) by (simpl; lia).
  assert (Hord : ordered (mkProps 0 60 1 1) (init (mkProps 0 60 1 1) (-3) 75))
    by (vm_compute; discriminate).
  split.
  - apply (rangeSlider_from_defaults (mkProps 0 60 1 1) (-3) 75); assumption.
  - apply (rangeSlider_from_defaults (mkProps 0 60 1 1) (-3) 75); try assumption.
    repeat constructor.
Defined.

(** X15. With step 1 and [min <= max], the value computed from a pointer
    position is an integer inside [[min, max]], wherever the pointer is. *)
Theorem clientXToValue_in_range (p : props) (raw : Q)
    (Hstep : step p = 1) (Hmm : min p <= max p) :
  min p <= clientXToValue p raw <= max p.
Proof.
  unfold clientXToValue, snapQ, Math_round. rewrite Hstep, Z.mul_1_r.
  set (c := clampQ raw (inject_Z (min p)) (inject_Z (max p))).
  assert (Hc : (inject_Z (min p) <= c <= inject_Z (max p))%Q).
  { unfold c, clampQ. rewrite Zle_Qle in Hmm. split.
    - apply Q.min_glb; [assumption | apply Q.le_max_l].
    - apply Q.le_min_l. }
  assert (E : (c / inject_Z 1 + (1 # 2) == c + (1 # 2))%Q) by (field).
  rewrite (Qfloor_comp _ _ E). split.
  - rewrite <- (Qfloor_Z (min p)). apply Qfloor_resp_le. lra.
  - change (Qfloor (c + (1 # 2))) with (Math_round c).
    rewrite <- (Math_round_inject_Z (max p)). unfold Math_round.
    apply Qfloor_resp_le. lra.
Qed.

Lemma clientXToValue_in_range_witness :
  0 <= clientXToValue (mkProps 0 60 1 1) (1234 # 10) <= 60.
Proof.
  apply (clientXToValue_in_range (mkProps 0 60 1 1) (1234 # 10)).
  - reflexivity.
  - simpl. lia.
Defined.

End RangeSliderExtras.

(** *** v2 page: slider values and dates across time zones *)

Section V2DatesFacts.

Import Dates V2Dates.

Lemma v2_sliderToDate_shift tz v q :
  0 <= q * MS_PER_DAY - tz < MS_PER_DAY ->
  sliderToDate tz v = dayOfCivil 2020 1 1 + v - q.
Proof.
  intros Hq. unfold sliderToDate, fixedStartDate, formatDate, dateOfDay.
  symmetry. apply (Z.div_unique _ _ _ (q * MS_PER_DAY - tz)).
  - left. exact Hq.
  - unfold MS_PER_DAY in *. lia.
Qed.

Lemma v2_dateToDays_shift tz d k :
  - MS_PER_DAY <= 2 * tz - 2 * k * MS_PER_DAY < MS_PER_DAY ->
  dateToDays tz (dayOfCivil 2020 1 1 + d) = d + k.
Proof.
  intros Hk. unfold dateToDays, fixedStartDate, dateOfDay.
  change (1000 * 60 * 60 * 24) with MS_PER_DAY.
  rewrite Math_round_quotient by discriminate.
  symmetry.
  apply (Z.div_unique _ _ _ (2 * tz - 2 * k * MS_PER_DAY + MS_PER_DAY)).
  - left. lia.
  - unfold MS_PER_DAY in *. lia.
Qed.

(** X16. In a time zone at or behind UTC (offset between -12 h and 0), the
    v2 page maps slider value [v] to the day 2020-01-01 + [v], and
    converting that date back to a slider value gives [v] again. *)
Theorem v2_roundtrip_west_of_utc (tzOffset v : Z)
    (Htz : - 12 * HOUR <= tzOffset <= 0) :
  sliderToDate tzOffset v = dayOfCivil 2020 1 1 + v /\
  dateToDays tzOffset (sliderToDate tzOffset v) = v.
Proof.
  unfold HOUR in Htz.
  assert (E : sliderToDate tzOffset v = dayOfCivil 2020 1 1 + v).
  { rewrite (v2_sliderToDate_shift tzOffset v 0); [lia|].
    unfold MS_PER_DAY. lia. }
  split; [exact E|]. rewrite E.
  rewrite (v2_dateToDays_shift tzOffset v 0); [lia|].
  unfold MS_PER_DAY. lia.
Qed.

Lemma v2_roundtrip_west_of_utc_witness :
  sliderToDate (- 5 * HOUR) 10 = dayOfCivil 2020 1 1 + 10 /\
  dateToDays (- 5 * HOUR) (sliderToDate (- 5 * HOUR) 10) = 10.
Proof.
  apply (v2_roundtrip_west_of_utc (- 5 * HOUR) 10). vm_compute.
  split; discriminate.
Defined.

(** X17. In a time zone ahead of UTC by less than 12 h, the v2 page maps
    slider value [v] to the day before 2020-01-01 + [v], and converting
    that date back gives [v - 1]: the round trip loses one day. *)
Theorem v2_roundtrip_east_of_utc (tzOffset v : Z)
    (Htz : 0 < tzOffset < 12 * HOUR) :
  sliderToDate tzOffset v = dayOfCivil 2020 1 1 + v - 1 /\
  dateToDays tzOffset (sliderToDate tzOffset v) = v - 1.
Proof.
  unfold HOUR in Htz.
  assert (E : sliderToDate tzOffset v = dayOfCivil 2020 1 1 + v - 1).
  { apply v2_sliderToDate_shift. unfold MS_PER_DAY. lia. }
  split; [exact E|]. rewrite E.
  replace (dayOfCivil 2020 1 1 + v - 1) with (dayOfCivil 2020 1 1 + (v - 1)) by lia.
  rewrite (v2_dateToDays_shift tzOffset (v - 1) 0); [lia|].
  unfold MS_PER_DAY. lia.
Qed.

Lemma v2_roundtrip_east_of_utc_witness :
  sliderToDate (1 * HOUR) 10 = dayOfCivil 2020 1 1 + 10 - 1 /\
  dateToDays (1 * HOUR) (sliderToDate (1 * HOUR) 10) = 10 - 1.
Proof.
  apply (v2_roundtrip_east_of_utc (1 * HOUR) 10). vm_compute.
  split; reflexivity.
Defined.

End V2DatesFacts.

(** *** Globe hover and map colour *)

Section GlobeFacts.

Import Globe.

Ltac q_cases :=
  repeat match goal with
         | |- context [Qgtb ?a ?b] =>
             let E := fresh "E" in
             destruct (Qgtb a b) eqn:E;
             [apply Qgtb_lt in E | apply Qgtb_not_lt in E];
             cbn [andb]; cbv iota
         end.

(** X18. Whatever the pointer position, the country guessed from it is
    never France nor China: their tests are shadowed by the tests for the
    United Kingdom and India that come first.  The answer is the United
    Kingdom exactly for [mouseY > 0.3] and [-0.4 < mouseX < 0.4]. *)
Theorem mouse_position_never_FR_CN (mouseX mouseY : Q) :
  getCountryFromMousePosition mouseX mouseY <> Some "FR" /\
  getCountryFromMousePosition mouseX mouseY <> Some "CN" /\
  (getCountryFromMousePosition mouseX mouseY = Some "GB" <->
   (3 # 10 < mouseY)%Q /\ (- (4 # 10) < mouseX)%Q /\ (mouseX < 4 # 10)%Q).
Proof.
  unfold getCountryFromMousePosition, Qltb. cbv zeta.
  q_cases;
    (split; [|split; [|split]]);
    try discriminate;
    try (intros; exfalso; lra);
    try (intros; repeat split; lra);
    try (intros (? & ? & ?); try reflexivity; exfalso; lra).
Qed.

(** X19. The blue component computed for a country's fill colour is always
    between 171 and 255, so it is a valid colour component and never
    lighter than [rgb(59, 130, 171)]. *)
Theorem blueValue_bounds (normalizedValue : Q) :
  171 <= blueValue normalizedValue <= 255.
Proof.
  unfold blueValue. cbv zeta.
  set (i := Qmax (2 # 10) (Qmin 1 normalizedValue)).
  assert (Hi : (2 # 10 <= i <= 1)%Q).
  { unfold i. split.
    - apply Q.le_max_l.
    - apply Q.max_lub; [discriminate | apply Q.le_min_l]. }
  split.
  - rewrite <- (Qfloor_Z 171). apply Qfloor_resp_le.
    change (inject_Z 171) with 171%Q. lra.
  - rewrite <- (Qfloor_Z 255). apply Qfloor_resp_le.
    change (inject_Z 255) with 255%Q. lra.
Qed.

End GlobeFacts.

(** *** Stable descending sort *)

Section JsSortFacts.

Import JsSort.

Context {A : Type} (key : A -> Z).

Lemma insertByDesc_perm x l : Permutation (insertByDesc key x l) (x :: l).
Proof.
  induction l as [|y l IH]; simpl.
  - apply Permutation_refl.
  - destruct (key x <? key y).
    + apply perm_trans with (y :: x :: l).
      * now apply perm_skip.
      * apply perm_swap.
    + apply Permutation_refl.
Qed.

Lemma sortByDesc_perm l : Permutation (sortByDesc key l) l.
Proof.
  induction l as [|x l IH]; simpl.
  - apply Permutation_refl.
  - apply perm_trans with (x :: sortByDesc key l).
    + apply insertByDesc_perm.
    + now apply perm_skip.
Qed.

Lemma in_sortByDesc x l : In x (sortByDesc key l) <-> In x l.
Proof.
  split; apply Permutation_in;
    [apply sortByDesc_perm | apply Permutation_sym, sortByDesc_perm].
Qed.

Lemma insertByDesc_sorted x l :
  sortedByDesc key l -> sortedByDesc key (insertByDesc key x l).
Proof.
  unfold sortedByDesc. induction 1 as [|y l Hs IH Hall]; simpl.
  - repeat constructor.
  - destruct (key x <? key y) eqn:E.
    + apply Z.ltb_lt in E. constructor; [exact IH|].
      apply (Permutation_Forall (Permutation_sym (insertByDesc_perm x l))).
      constructor; [lia | exact Hall].
    + apply Z.ltb_ge in E. constructor.
      * now constructor.
      * constructor; [lia|].
        eapply Forall_impl; [|exact Hall]. simpl. intros; lia.
Qed.

Lemma sortByDesc_sorted l : sortedByDesc key (sortByDesc key l).
Proof.
  induction l as [|x l IH]; simpl.
  - constructor.
  - now apply insertByDesc_sorted.
Qed.

Lemma sorted_app_le l1 l2 a b :
  sortedByDesc key (l1 ++ l2) -> In a l1 -> In b l2 -> key b <= key a.
Proof.
  unfold sortedByDesc. induction l1 as [|x l1 IH]; simpl; intros Hs Ha Hb.
  - destruct Ha.
  - inversion Hs as [|? ? Hs' Hall]; subst. destruct Ha as [->|Ha].
    + rewrite Forall_forall in Hall. apply Hall. apply in_or_app. now right.
    + now apply IH.
Qed.

End JsSortFacts.

(** *** The [if (totals[k]) ... += ... else ... = ...] update *)

Section AddToFacts.

Lemma get_addTo_same t k x :
  JsObject.get (addTo t k x) k = Some (orZero (JsObject.get t k) + x).
Proof.
  unfold addTo. destruct (JsObject.get t k) as [v|] eqn:G; simpl.
  - destruct (v =? 0) eqn:E; rewrite get_set_same; [|reflexivity].
    apply Z.eqb_eq in E. now subst.
  - apply get_set_same.
Qed.

Lemma get_addTo_other t k k' x :
  k <> k' -> JsObject.get (addTo t k x) k' = JsObject.get t k'.
Proof.
  intros Hne. unfold addTo. destruct (JsObject.get t k) as [v|].
  - destruct (v =? 0); now apply get_set_other.
  - now apply get_set_other.
Qed.

Lemma NoDup_keys_addTo t k x :
  NoDup (JsObject.keys t) -> NoDup (JsObject.keys (addTo t k x)).
Proof.
  intros H. unfold addTo. destruct (JsObject.get t k) as [v|].
  - destruct (v =? 0); now apply NoDup_keys_set.
  - now apply NoDup_keys_set.
Qed.

Lemma Zsum_values_addTo t k x :
  Zsum (JsObject.values (addTo t k x)) = Zsum (JsObject.values t) + x.
Proof.
  pose proof (fun v => Zsum_values_set (fun y : Z => y) t k v) as H.
  unfold addTo. destruct (JsObject.get t k) as [v|] eqn:G.
  - destruct (v =? 0) eqn:E.
    + specialize (H x). rewrite !map_id in H. rewrite H.
      apply Z.eqb_eq in E. lia.
    + specialize (H (v + x)). rewrite !map_id in H. rewrite H. lia.
  - specialize (H x). rewrite !map_id in H. rewrite H. lia.
Qed.

End AddToFacts.

(** *** Dapp usage table *)

Section DappUsageFacts.

Import JsSort DappUsage.

Lemma existsb_false_filter {A : Type} (f : A -> bool) (l : list A) :
  existsb f l = false -> filter f l = [].
Proof.
  induction l as [|x l IH]; simpl; [reflexivity|].
  intros H. apply orb_false_iff in H. destruct H as [H1 H2].
  rewrite H1. now apply IH.
Qed.

Lemma dappTotals_snoc l r :
  dappTotals (l ++ [r]) =
  addTo (dappTotals l) (dapp_name r) (orZero (total_requests r)).
Proof. unfold dappTotals. now rewrite fold_left_app. Qed.

Lemma dappTotals_NoDup l : NoDup (JsObject.keys (dappTotals l)).
Proof.
  induction l as [|r l IH] using rev_ind.
  - constructor.
  - rewrite dappTotals_snoc. now apply NoDup_keys_addTo.
Qed.

Lemma dappTotals_get l name :
  JsObject.get (dappTotals l) name =
  if existsb (fun r => String.eqb (dapp_name r) name) l
  then Some (Zsum (requestsOf name l))
  else None.
Proof.
  induction l as [|r l IH] using rev_ind; [reflexivity|].
  rewrite dappTotals_snoc, existsb_app. unfold requestsOf.
  rewrite filter_app, map_app, Zsum_app. simpl.
  destruct (String.eqb (dapp_name r) name) eqn:E.
  - apply String.eqb_eq in E. subst name.
    rewrite get_addTo_same, IH, orb_true_r.
    destruct (existsb _ l) eqn:X; simpl.
    + unfold requestsOf. f_equal. lia.
    + f_equal.
      rewrite (existsb_false_filter _ _ X). simpl. lia.
  - apply String.eqb_neq in E. rewrite get_addTo_other by assumption.
    rewrite IH, orb_false_r. simpl.
    destruct (existsb _ l); [|reflexivity]. unfold requestsOf. f_equal. lia.
Qed.

(** X20. The dapp table (and the action table built the same way) lists
    each dapp name once, in descending order of requests, and the
    requests shown for a name are the sum of [total_requests] (null read
    as 0) over exactly the rows with that name. *)
Theorem dappArray_sorted_totals (data : list row) :
  sortedByDesc snd (dappArray data) /\
  NoDup (map fst (dappArray data)) /\
  (forall name total,
     In (name, total) (dappArray data) <->
     (exists r, In r data /\ dapp_name r = name) /\
     total = Zsum (requestsOf name data)).
Proof.
  unfold dappArray, JsObject.entries. split; [apply sortByDesc_sorted|]. split.
  - apply (Permutation_NoDup
             (Permutation_map fst (Permutation_sym (sortByDesc_perm snd (dappTotals data))))).
    apply dappTotals_NoDup.
  - intros name total. rewrite in_sortByDesc. split.
    + intros Hin. apply in_get_some in Hin; [|apply dappTotals_NoDup].
      rewrite dappTotals_get in Hin.
      destruct (existsb _ data) eqn:X; [|discriminate].
      apply existsb_exists in X. destruct X as [r [Hr E]].
      apply String.eqb_eq in E. injection Hin as <-. split; [now exists r|reflexivity].
    + intros [[r [Hr E]] ->]. apply get_some_in. rewrite dappTotals_get.
      assert (X : existsb (fun r0 => String.eqb (dapp_name r0) name) data = true).
      { apply existsb_exists. exists r. split; [assumption|]. now apply String.eqb_eq. }
      now rewrite X.
Qed.

End DappUsageFacts.

(** *** Grouped totals built with [addTo] *)

Section GroupTotals.

Context {R : Type} (key : R -> string) (val : R -> Z).

Lemma addTo_fold_NoDup l :
  NoDup (JsObject.keys
           (fold_left (fun t r => addTo t (key r) (val r)) l JsObject.empty)).
Proof.
  induction l as [|r l IH] using rev_ind.
  - constructor.
  - rewrite fold_left_app. simpl. now apply NoDup_keys_addTo.
Qed.

Lemma addTo_fold_get l name :
  JsObject.get (fold_left (fun t r => addTo t (key r) (val r)) l JsObject.empty) name =
  if existsb (fun r => String.eqb (key r) name) l
  then Some (Zsum (map val (filter (fun r => String.eqb (key r) name) l)))
  else None.
Proof.
  induction l as [|r l IH] using rev_ind; [reflexivity|].
  rewrite fold_left_app, existsb_app, filter_app, map_app, Zsum_app. simpl.
  destruct (String.eqb (key r) name) eqn:E.
  - apply String.eqb_eq in E. subst name.
    rewrite get_addTo_same, IH, orb_true_r.
    destruct (existsb _ l) eqn:X; simpl.
    + f_equal. lia.
    + rewrite (existsb_false_filter _ _ X). simpl. f_equal. lia.
  - apply String.eqb_neq in E. rewrite get_addTo_other by assumption.
    rewrite IH, orb_false_r. simpl.
    destruct (existsb _ l); [|reflexivity]. f_equal. lia.
Qed.

End GroupTotals.

(** *** Users per country across all chains *)

Section AllChainsFacts.

Import JsSort AllChains.

Lemma countryChainTotals_snoc l r :
  countryChainTotals (l ++ [r]) =
  JsObject.set (countryChainTotals l) (country r)
    (addTo match JsObject.get (countryChainTotals l) (country r) with
           | Some o => o
           | None => JsObject.empty
           end (chain r) (users r)).
Proof. unfold countryChainTotals. now rewrite fold_left_app. Qed.

(** The total of a country is the sum of its per-chain totals. *)
Lemma countryTotals_breakdown l k :
  JsObject.get (countryTotals l) k =
  match JsObject.get (countryChainTotals l) k with
  | Some o => Some (Zsum (JsObject.values o))
  | None => None
  end.
Proof.
  induction l as [|r l IH] using rev_ind; [reflexivity|].
  rewrite countryChainTotals_snoc. unfold countryTotals in *.
  rewrite fold_left_app. simpl.
  destruct (string_dec (country r) k) as [<-|Hne].
  - rewrite get_addTo_same, get_set_same, Zsum_values_addTo, IH.
    destruct (JsObject.get (countryChainTotals l) (country r)); reflexivity.
  - rewrite get_addTo_other, get_set_other by assumption. exact IH.
Qed.

(** X21. In the "all chains" view, the country table lists each country
    once, in descending order of users, with rank 0; the users shown for
    a country are the sum of the users of its rows, and also the sum of
    the per-chain figures attached to it. *)
Theorem allChains_table (data : list row) :
  sortedByDesc item_users (aggregatedData data) /\
  NoDup (map item_country (aggregatedData data)) /\
  (forall r, In r data ->
     exists it, In it (aggregatedData data) /\ item_country it = country r) /\
  (forall it, In it (aggregatedData data) ->
     rank it = 0 /\
     (exists r, In r data /\ country r = item_country it) /\
     item_users it =
       Zsum (map users (filter (fun r => String.eqb (country r) (item_country it)) data)) /\
     item_users it = Zsum (JsObject.values (allChainsData it))).
Proof.
  unfold aggregatedData, JsObject.entries.
  set (F := fun e : string * Z =>
              mkItem (fst e) (snd e) 0
                match JsObject.get (countryChainTotals data) (fst e) with
                | Some o => o
                | None => JsObject.empty
                end).
  assert (Hnd : NoDup (JsObject.keys (countryTotals data)))
    by apply (addTo_fold_NoDup country users).
  assert (Hget : forall k,
            JsObject.get (countryTotals data) k =
            if existsb (fun r => String.eqb (country r) k) data
            then Some (Zsum (map users (filter (fun r => String.eqb (country r) k) data)))
            else None)
    by apply (addTo_fold_get country users).
  split; [apply sortByDesc_sorted|]. split; [|split].
  - apply (Permutation_NoDup
             (Permutation_map item_country
                (Permutation_sym (sortByDesc_perm item_users (map F (countryTotals data)))))).
    rewrite map_map. exact Hnd.
  - intros r Hr.
    assert (X : existsb (fun r0 => String.eqb (country r0) (country r)) data = true).
    { apply existsb_exists. exists r. split; [assumption | apply String.eqb_refl]. }
    specialize (Hget (country r)). rewrite X in Hget. apply get_some_in in Hget.
    exists (F (country r, Zsum (map users
                 (filter (fun r0 => String.eqb (country r0) (country r)) data)))).
    split; [|reflexivity]. apply in_sortByDesc. now apply in_map.
  - intros it Hin. apply in_sortByDesc in Hin. apply in_map_iff in Hin.
    destruct Hin as [[c u] [<- He]]. simpl.
    apply in_get_some in He; [|exact Hnd].
    split; [reflexivity|]. split; [|split].
    + rewrite Hget in He. destruct (existsb _ data) eqn:X; [|discriminate].
      apply existsb_exists in X. destruct X as [r [Hr E]].
      apply String.eqb_eq in E. now exists r.
    + rewrite Hget in He. destruct (existsb _ data); [|discriminate].
      now injection He as <-.
    + rewrite countryTotals_breakdown in He.
      destruct (JsObject.get (countryChainTotals data) c); [|discriminate].
      now injection He as <-.
Qed.

End AllChainsFacts.

(** *** Top dapps of a country (v2 page) *)

Section CountryDappsFacts.

Import JsSort CountryDapps.

Lemma Forall_values_set {V : Type} (P : V -> Prop) (o : JsObject.t V) k v :
  Forall P (JsObject.values o) -> P v ->
  Forall P (JsObject.values (JsObject.set o k v)).
Proof.
  unfold JsObject.values. intros Ho Hv.
  induction o as [|[k' v'] o IH]; simpl.
  - now constructor.
  - simpl in Ho. inversion Ho; subst.
    destruct (String.eqb k' k); simpl; constructor; auto.
Qed.

Lemma get_in_values {V : Type} (o : JsObject.t V) k v :
  JsObject.get o k = Some v -> In v (JsObject.values o).
Proof.
  intros H. apply get_some_in in H. unfold JsObject.values.
  change v with (snd (k, v)). now apply in_map.
Qed.

Lemma dappAggregated_chains_NoDup l :
  Forall (fun e => NoDup (chains e)) (JsObject.values (dappAggregated l)).
Proof.
  induction l as [|r l IH] using rev_ind.
  - constructor.
  - unfold dappAggregated in *. rewrite fold_left_app. simpl.
    unfold addRow at 1. cbv zeta.
    apply Forall_values_set; [exact IH|].
    set (e0 := match JsObject.get _ (keyOf r) with Some e => e | None => _ end).
    assert (H0 : NoDup (chains e0)).
    { unfold e0. destruct (JsObject.get _ (keyOf r)) as [e|] eqn:G.
      - rewrite Forall_forall in IH. apply IH. now apply (get_in_values _ (keyOf r)).
      - constructor. }
    cbn [chains]. destruct (existsb (String.eqb (chain r)) (chains e0)) eqn:X.
    + exact H0.
    + cbn [chains]. apply NoDup_app; [exact H0 | repeat constructor; auto |].
      intros a Ha [E|[]]. subst a.
      assert (existsb (String.eqb (chain r)) (chains e0) = true).
      { apply existsb_exists. exists (chain r).
        split; [assumption | apply String.eqb_refl]. }
      congruence.
Qed.

(** X22. The dapp list of a country holds at most 30 entries, in
    descending order of requests; it is a top list (no entry left out
    has more requests than an entry kept), and the chains recorded for
    an entry contain no duplicate. *)
Theorem aggregatedArray_top30 (data : list row) :
  (List.length (aggregatedArray data) <= 30)%nat /\
  sortedByDesc entry_requests (aggregatedArray data) /\
  (forall e, In e (aggregatedArray data) ->
     In e (JsObject.values (dappAggregated data)) /\ NoDup (chains e)) /\
  (forall kept dropped,
     In kept (aggregatedArray data) ->
     In dropped (JsObject.values (dappAggregated data)) ->
     ~ In dropped (aggregatedArray data) ->
     entry_requests dropped <= entry_requests kept).
Proof.
  unfold aggregatedArray.
  set (sorted := sortByDesc entry_requests (JsObject.values (dappAggregated data))).
  assert (Hs : sortedByDesc entry_requests sorted) by apply sortByDesc_sorted.
  assert (Hsplit : firstn 30 sorted ++ skipn 30 sorted = sorted) by apply firstn_skipn.
  split; [apply firstn_le_length|]. split; [|split].
  - rewrite <- Hsplit in Hs. unfold sortedByDesc in *.
    clear Hsplit. induction (firstn 30 sorted) as [|x l IH]; [constructor|].
    simpl in Hs. inversion Hs as [|? ? Hs' Hall]; subst.
    constructor; [now apply IH|].
    rewrite Forall_forall in *. intros y Hy. apply Hall. apply in_or_app. now left.
  - intros e He.
    assert (Hin : In e (JsObject.values (dappAggregated data))).
    { apply (in_sortByDesc entry_requests). fold sorted. rewrite <- Hsplit.
      apply in_or_app. now left. }
    split; [exact Hin|].
    pose proof (dappAggregated_chains_NoDup data) as H.
    rewrite Forall_forall in H. now apply H.
  - intros kept dropped Hk Hd Hnot.
    apply (in_sortByDesc entry_requests) in Hd. fold sorted in Hd.
    rewrite <- Hsplit in Hd. apply in_app_or in Hd.
    destruct Hd as [Hd|Hd]; [contradiction|].
    rewrite <- Hsplit in Hs. now apply (sorted_app_le entry_requests _ _ _ _ Hs).
Qed.

End CountryDappsFacts.

(** *** Total API requests of the map *)

Section MapCountryFacts.

Import MapCountry.

Lemma total_fold_None l :
  fold_left
    (fun sum val =>
       match sum with
       | Some n => if total_requests val =? 0 then None
                   else Some (n + total_requests val)
       | None => None
       end) l None = None.
Proof. induction l as [|v l IH]; simpl; auto. Qed.

Lemma total_fold_Some l n :
  fold_left
    (fun sum val =>
       match sum with
       | Some n => if total_requests val =? 0 then None
                   else Some (n + total_requests val)
       | None => None
       end) l (Some n) =
  if forallb (fun v => negb (total_requests v =? 0)) l
  then Some (n + Zsum (map total_requests l))
  else None.
Proof.
  revert n. induction l as [|v l IH]; intros n; simpl.
  - f_equal. lia.
  - destruct (total_requests v =? 0); simpl.
    + apply total_fold_None.
    + rewrite IH. destruct (forallb _ l); [f_equal; lia | reflexivity].
Qed.

Lemma addRow_total ct r :
  Zsum (map total_requests (JsObject.values (addRow ct r))) =
  Zsum (map total_requests (JsObject.values ct)) + orZero (Row.total_requests r).
Proof.
  unfold addRow. cbv zeta. rewrite Zsum_values_set.
  destruct (JsObject.get ct (keyOf r)); simpl; lia.
Qed.

Lemma countryTotals_conservation data :
  data <> [] ->
  Zsum (map total_requests (JsObject.values (countryTotals data))) =
  Zsum (map (fun r => orZero (Row.total_requests r)) data).
Proof.
  intros Hne. unfold countryTotals. destruct data as [|r0 data]; [congruence|].
  clear Hne. generalize (r0 :: data). intros l.
  induction l as [|r l IH] using rev_ind; [reflexivity|].
  rewrite fold_left_app, map_app, Zsum_app. simpl.
  rewrite addRow_total, IH. lia.
Qed.

(** X23. The grand total shown with the map is a number exactly when no
    country has a total of 0: it is then the sum of [total_requests]
    (null read as 0) over all fetched rows; as soon as one country's
    total is 0 the reduction leaves the numbers.  With no row at all,
    the mock countries are used and the total is 28391. *)
Theorem totalApiRequests_cases (data : list Row.t) :
  (Forall (fun t => total_requests t <> 0) (JsObject.values (countryTotals data)) ->
   data <> [] ->
   totalApiRequests data =
     Some (Zsum (map (fun r => orZero (Row.total_requests r)) data))) /\
  (Exists (fun t => total_requests t = 0) (JsObject.values (countryTotals data)) ->
   totalApiRequests data = None) /\
  (data = [] -> totalApiRequests data = Some 28391).
Proof.
  unfold totalApiRequests. rewrite total_fold_Some. split; [|split].
  - intros Hall Hne.
    assert (X : forallb (fun v => negb (total_requests v =? 0))
                        (JsObject.values (countryTotals data)) = true).
    { apply forallb_forall. rewrite Forall_forall in Hall.
      intros v Hv. apply negb_true_iff, Z.eqb_neq. now apply Hall. }
    rewrite X, countryTotals_conservation by assumption. reflexivity.
  - intros Hex. apply Exists_exists in Hex. destruct Hex as [v [Hv Hz]].
    destruct (forallb _ (JsObject.values (countryTotals data))) eqn:X; [|reflexivity].
    rewrite forallb_forall in X. specialize (X v Hv).
    apply negb_true_iff, Z.eqb_neq in X. contradiction.
  - intros ->. reflexivity.
Qed.

Lemma totalApiRequests_cases_witness :
  totalApiRequests
    [ Row.mk "2025-06-01" (Some "US") "ethereum" "defi" (Some 5) None None;
      Row.mk "2025-06-02" (Some "US") "ethereum" "nft" None None None;
      Row.mk "2025-06-01" (Some "CA") "ethereum" "defi" (Some 3) None None ] = Some 8 /\
  totalApiRequests
    [ Row.mk "2025-06-01" (Some "US") "ethereum" "defi" (Some 5) None None;
      Row.mk "2025-06-01" (Some "CA") "ethereum" "defi" None None None ] = None.
Proof.
  split.
  - apply (proj1 (totalApiRequests_cases
                    [ Row.mk "2025-06-01" (Some "US") "ethereum" "defi" (Some 5) None None;
                      Row.mk "2025-06-02" (Some "US") "ethereum" "nft" None None None;
                      Row.mk "2025-06-01" (Some "CA") "ethereum" "defi" (Some 3) None None ])).
    + vm_compute. repeat constructor; discriminate.
    + discriminate.
  - apply (proj1 (proj2 (totalApiRequests_cases _))).
    vm_compute. apply Exists_cons_tl. apply Exists_cons_hd. reflexivity.
Defined.

End MapCountryFacts.

(** *** Selected country and map totals *)

Section CountryLookupFacts.

Import MapCountry CountryLookup.

Lemma mapCountry_get l k :
  option_map total_requests (JsObject.get (fold_left addRow l JsObject.empty) k) =
  if existsb (fun r => String.eqb (keyOf r) k) l
  then Some (requestsFor k l)
  else None.
Proof.
  induction l as [|r l IH] using rev_ind; [reflexivity|].
  rewrite fold_left_app, existsb_app. unfold requestsFor in *.
  rewrite filter_app, map_app, Zsum_app. simpl.
  destruct (String.eqb (keyOf r) k) eqn:E.
  - apply String.eqb_eq in E. subst k. unfold addRow at 1. cbv zeta.
    rewrite get_set_same, orb_true_r. simpl.
    destruct (JsObject.get (fold_left addRow l JsObject.empty) (keyOf r)) as [t|];
      simpl in IH; destruct (existsb _ l) eqn:X; try discriminate.
    + injection IH as IH. simpl. f_equal. lia.
    + rewrite (existsb_false_filter _ _ X). simpl. f_equal. lia.
  - apply String.eqb_neq in E. unfold addRow at 1. cbv zeta.
    rewrite get_set_other by assumption. rewrite IH, orb_false_r. simpl.
    destruct (existsb _ l); [|reflexivity]. f_equal. lia.
Qed.

Lemma requestsFor_absent k data :
  existsb (fun r => String.eqb (keyOf r) k) data = false -> requestsFor k data = 0.
Proof. intros X. unfold requestsFor. now rewrite (existsb_false_filter _ _ X). Qed.

(** X24. With fetched rows present, the requests shown for the selected
    country are the sum of [total_requests] over the rows whose country
    is the selected code itself if some row has it, and otherwise over
    the rows whose country is the 2-letter code the selection is mapped
    to (0 when there is none): selecting the numeric code of a country
    shows the total stored under its 2-letter code.  The totals card
    shows the same figure whenever one of these two codes has rows. *)
Theorem selected_country_requests (data : list Row.t) (selectedCountry : string)
    (Hdata : data <> []) (Hsel : truthy (Some selectedCountry) = true) :
  getSelectedCountryApiRequests (countryTotals data) (Some selectedCountry) =
    (if existsb (fun r => String.eqb (keyOf r) selectedCountry) data
     then requestsFor selectedCountry data
     else requestsFor (getCountryCodeMapping selectedCountry) data) /\
  (existsb (fun r => String.eqb (keyOf r) selectedCountry) data
   || existsb (fun r => String.eqb (keyOf r) (getCountryCodeMapping selectedCountry)) data
   = true ->
   cardCountryTotal (countryTotals data) selectedCountry =
   getSelectedCountryApiRequests (countryTotals data) (Some selectedCountry)).
Proof.
  assert (Hct : countryTotals data = fold_left addRow data JsObject.empty).
  { destruct data; [congruence | reflexivity]. }
  rewrite Hct. clear Hct Hdata.
  set (m := fold_left addRow data JsObject.empty).
  pose proof (mapCountry_get data selectedCountry) as H1.
  pose proof (mapCountry_get data (getCountryCodeMapping selectedCountry)) as H2.
  fold m in H1, H2.
  unfold getSelectedCountryApiRequests, cardCountryTotal, JsObject.has.
  rewrite Hsel. cbv zeta. cbn [find]. cbv beta.
  destruct (JsObject.get m selectedCountry) as [t1|] eqn:G1;
    destruct (existsb (fun r => String.eqb (keyOf r) selectedCountry) data) eqn:X1;
    simpl in H1; try discriminate.
  - injection H1 as H1. split; [exact H1 | intros _; now rewrite G1].
  - destruct (JsObject.get m (getCountryCodeMapping selectedCountry)) as [t2|] eqn:G2;
      destruct (existsb (fun r => String.eqb (keyOf r)
                                    (getCountryCodeMapping selectedCountry)) data) eqn:X2;
      simpl in H2; try discriminate.
    + injection H2 as H2. split; [exact H2 | intros _; now rewrite G2].
    + split; [symmetry; now apply requestsFor_absent | discriminate].
Qed.

Lemma selected_country_requests_witness :
  getSelectedCountryApiRequests (countryTotals Aggregator.sampleRows) (Some "840") = 107.
Proof.
  pose proof (selected_country_requests Aggregator.sampleRows "840"
                ltac:(discriminate) ltac:(reflexivity)) as [H _].
  rewrite H. reflexivity.
Defined.

End CountryLookupFacts.
